(** * Secure Task Manager: the task API of the server and the client's
      rendering (public/script.js), embedded in Rocq.

    The server is an Express application over one SQLite table.  Each
    route handler is modelled as a function from the request and the
    database to the new database and the HTTP response.  The sqlite3
    driver and the SQL statements the handlers issue are modelled as
    operations on the table's rows. *)

From Stdlib Require Import Ascii String.
From Stdlib Require Import List ZArith NArith Bool Lia.
From Stdlib Require Import Sorting.Sorted Sorting.Permutation.
From Stdlib Require DecimalString DecimalPos.
Import ListNotations.

(** ** JavaScript strings and values *)

(** A JavaScript string is a sequence of UTF-16 code units; [length],
    [includes], [trim] and [replace] all work on code units. *)
Definition code_unit := N.
Definition jsstring := list code_unit.

(** An ASCII literal as a JavaScript string. *)
Definition lit (s : string) : jsstring :=
  map N_of_ascii (list_ascii_of_string s).
Arguments lit s%_string.

(** [s.startsWith(pat)] and [s.includes(pat)]. *)
Fixpoint startsWith (s pat : jsstring) {struct pat} : bool :=
  match pat, s with
  | [], _ => true
  | _ :: _, [] => false
  | p :: pat', c :: s' => (c =? p)%N && startsWith s' pat'
  end.

Fixpoint includes (s pat : jsstring) : bool :=
  startsWith s pat
  || match s with
     | [] => false
     | _ :: s' => includes s' pat
     end.

(** ECMAScript WhiteSpace and LineTerminator code points, the ones
    [String.prototype.trim] strips: TAB, LF, VT, FF, CR, SP, NBSP,
    U+1680, U+2000..U+200A, U+2028, U+2029, U+202F, U+205F, U+3000 and
    U+FEFF. *)
Definition isWhiteSpace (c : code_unit) : bool :=
  (existsb (N.eqb c)
     [9; 10; 11; 12; 13; 32; 160; 5760; 8232; 8233; 8239; 8287; 12288; 65279]
   || ((8192 <=? c) && (c <=? 8202)))%N.

Fixpoint trimStart (s : jsstring) : jsstring :=
  match s with
  | [] => []
  | c :: s' => if isWhiteSpace c then trimStart s' else s
  end.

Definition trimEnd (s : jsstring) : jsstring := rev (trimStart (rev s)).

Definition trim (s : jsstring) : jsstring := trimEnd (trimStart s).

(** The values a JSON request body can carry in its [title] field
    ([JUndefined] when the field is absent).  Objects and arrays carry no
    payload: no branch of the program looks inside them.  A JSON number
    with a fraction behaves like a non-zero integer everywhere below. *)
Inductive JsValue :=
| JUndefined
| JNull
| JBool (b : bool)
| JNumber (n : Z)
| JString (s : jsstring)
| JObject
| JArray.

Inductive JsType :=
| TUndefined | TObject | TBoolean | TNumber | TString.

Definition typeof (v : JsValue) : JsType :=
  match v with
  | JUndefined => TUndefined
  | JNull => TObject
  | JBool _ => TBoolean
  | JNumber _ => TNumber
  | JString _ => TString
  | JObject | JArray => TObject
  end.

Definition is_string_type (t : JsType) : bool :=
  match t with TString => true | _ => false end.

(** ToBoolean: what [!v] and [v ? a : b] test. *)
Definition truthy (v : JsValue) : bool :=
  match v with
  | JUndefined | JNull => false
  | JBool b => b
  | JNumber n => negb (n =? 0)%Z
  | JString s => match s with [] => false | _ => true end
  | JObject | JArray => true
  end.

(** ** The server: input validation *)

(** [function validateTaskTitle(title)].  The length test reads
    [title.length], the length of the title as received. *)
Definition validateTaskTitle (title : JsValue) : bool :=
  if negb (truthy title) || negb (is_string_type (typeof title)) then false
  else
    match title with
    | JString s =>
        if (length s <? 1) || (200 <? length s) then false
        else if includes s (lit "<script") || includes s (lit "javascript:")
             then false
             else true
    | _ => false
    end.

(** [/^\d+$/.test(id)]: without the [m] flag the anchors are the two ends
    of the input, and [\d] is exactly [0-9]. *)
Definition isDigit (c : code_unit) : bool := ((48 <=? c) && (c <=? 57))%N.

Definition test_digits (id : jsstring) : bool :=
  match id with
  | [] => false
  | _ :: _ => forallb isDigit id
  end.

(** ** Clock readings and their two textual forms *)

(** A UTC clock reading, broken down.  The fields are calendar values
    (year 0..9999, the range SQLite's date functions cover). *)
Record UtcTime := {
  year : N; month : N; day : N;
  hour : N; minute : N; second : N; millis : N
}.

Definition digit (n : N) : code_unit := (48 + n mod 10)%N.
Definition pad2 (n : N) : jsstring := [digit (n / 10); digit n].
Definition pad3 (n : N) : jsstring := digit (n / 100) :: pad2 n.
Definition pad4 (n : N) : jsstring := digit (n / 1000) :: pad3 n.

(** SQLite's [CURRENT_TIMESTAMP]: the text [YYYY-MM-DD HH:MM:SS]. *)
Definition CURRENT_TIMESTAMP (t : UtcTime) : jsstring :=
  pad4 (year t) ++ lit "-" ++ pad2 (month t) ++ lit "-" ++ pad2 (day t)
  ++ lit " "
  ++ pad2 (hour t) ++ lit ":" ++ pad2 (minute t) ++ lit ":" ++ pad2 (second t).

(** [Date.prototype.toISOString]: [YYYY-MM-DDTHH:mm:ss.sssZ]. *)
Definition toISOString (t : UtcTime) : jsstring :=
  pad4 (year t) ++ lit "-" ++ pad2 (month t) ++ lit "-" ++ pad2 (day t)
  ++ lit "T"
  ++ pad2 (hour t) ++ lit ":" ++ pad2 (minute t) ++ lit ":" ++ pad2 (second t)
  ++ lit "." ++ pad3 (millis t) ++ lit "Z".

(** ** The tasks table

<<
    CREATE TABLE IF NOT EXISTS tasks (
        id INTEGER PRIMARY KEY AUTOINCREMENT,
        title TEXT NOT NULL,
        completed BOOLEAN DEFAULT FALSE,
        created_at DATETIME DEFAULT CURRENT_TIMESTAMP)
>>
    SQLite has no boolean storage class: [FALSE] and [TRUE] are the
    integers 0 and 1, and that is what the driver hands back. *)
Record Row := {
  id : Z;
  title : jsstring;
  completed : Z;
  created_at : jsstring
}.

Definition SQL_FALSE : Z := 0.
Definition SQL_TRUE : Z := 1.

(** SQL [NOT] on a non-NULL integer. *)
Definition sql_not (v : Z) : Z := if (v =? 0)%Z then SQL_TRUE else SQL_FALSE.

(** The statements the handlers send, with their bound parameters. *)
Inductive Stmt :=
| SelectTasks
| InsertTask (title : jsstring)
| ToggleTask (id : jsstring)
| DeleteTask (id : jsstring).

(** The database file: the table's rows in rowid order (the order of a
    table scan), the [sqlite_sequence] entry of the table (the largest
    rowid ever handed out, kept by AUTOINCREMENT), and the log of the
    statements that reached the driver, newest first. *)
Record Database := {
  tasks : list Row;
  sqlite_sequence : Z;
  statements : list Stmt
}.

Definition empty_database : Database :=
  {| tasks := []; sqlite_sequence := 0; statements := [] |}.

Definition max_rowid (rows : list Row) : Z :=
  fold_right (fun r m => Z.max (id r) m) 0%Z rows.

(** AUTOINCREMENT: one more than the largest rowid that ever existed. *)
Definition next_rowid (db : Database) : Z :=
  (Z.max (sqlite_sequence db) (max_rowid (tasks db)) + 1)%Z.

(** BINARY collation on text: code units compared left to right, a
    proper prefix sorting first. *)
Fixpoint text_compare (a b : jsstring) : comparison :=
  match a, b with
  | [], [] => Eq
  | [], _ :: _ => Lt
  | _ :: _, [] => Gt
  | x :: a', y :: b' =>
      match (x ?= y)%N with
      | Eq => text_compare a' b'
      | c => c
      end
  end.

Definition text_ltb (a b : jsstring) : bool :=
  match text_compare a b with Lt => true | _ => false end.

(** [ORDER BY created_at DESC] over a table scan.  The statement names no
    second key; SQLite's sorter is stable, so rows with equal keys come
    out in scan order. *)
Fixpoint insert_desc (r : Row) (sorted : list Row) : list Row :=
  match sorted with
  | [] => [r]
  | x :: rest =>
      if text_ltb (created_at r) (created_at x)
      then x :: insert_desc r rest
      else r :: x :: rest
  end.

Definition order_by_created_at_desc (rows : list Row) : list Row :=
  fold_right insert_desc [] rows.

(** The text bound to [?] in [WHERE id = ?] meets a column of INTEGER
    affinity and is converted to a number before the comparison.  Only
    texts that passed [/^\d+$/] are ever bound; any other text is taken to
    match no row. *)
Definition decimal_value (s : jsstring) : Z :=
  fold_left (fun acc c => (10 * acc + (Z.of_N c - 48))%Z) s 0%Z.

Definition id_matches (param : jsstring) (r : Row) : bool :=
  test_digits param && (id r =? decimal_value param)%Z.

(** The text SQLite holds for a bound JavaScript string.  The driver hands
    the string over as UTF-8, and a surrogate code unit that is not part
    of a high-low pair has no UTF-8 form: it is stored as U+FFFD.  Every
    other code unit reads back as it was. *)
Definition isHighSurrogate (c : code_unit) : bool :=
  ((55296 <=? c) && (c <=? 56319))%N.

Definition isLowSurrogate (c : code_unit) : bool :=
  ((56320 <=? c) && (c <=? 57343))%N.

Definition REPLACEMENT_CHARACTER : code_unit := 65533%N.

Fixpoint sqlite_text (s : jsstring) : jsstring :=
  match s with
  | [] => []
  | c :: s' =>
      if isHighSurrogate c
      then match s' with
           | d :: s'' =>
               if isLowSurrogate d
               then c :: d :: sqlite_text s''
               else REPLACEMENT_CHARACTER :: sqlite_text s'
           | [] => [REPLACEMENT_CHARACTER]
           end
      else if isLowSurrogate c
           then REPLACEMENT_CHARACTER :: sqlite_text s'
           else c :: sqlite_text s'
  end.

(** What the driver passes to a [db.run] callback: [err], or [this] with
    its [lastID] and [changes].  [lastID] means something after an INSERT
    only and [changes] after an UPDATE or DELETE only; the handlers read
    them accordingly. *)
Inductive RunResult :=
| RunError (message : jsstring)
| RunDone (lastID : Z) (changes : nat).

(** The part of a request's outcome the program does not decide: whether
    the driver reports an error (I/O failure, locked or full database),
    SQLite's clock when the statement runs, and the JavaScript clock when
    the callback runs. *)
Record Env := {
  sqlite_error : option jsstring;
  sqlite_clock : UtcTime;
  js_clock : UtcTime
}.

Definition log (st : Stmt) (db : Database) : Database :=
  {| tasks := tasks db;
     sqlite_sequence := sqlite_sequence db;
     statements := st :: statements db |}.

(** [db.all('SELECT * FROM tasks ORDER BY created_at DESC', cb)] *)
Definition db_all_tasks (env : Env) (db : Database)
  : Database * (jsstring + list Row) :=
  match sqlite_error env with
  | Some e => (log SelectTasks db, inl e)
  | None => (log SelectTasks db, inr (order_by_created_at_desc (tasks db)))
  end.

(** [db.run('INSERT INTO tasks (title) VALUES (?)', [title], cb)] *)
Definition db_run_insert (env : Env) (t : jsstring) (db : Database)
  : Database * RunResult :=
  match sqlite_error env with
  | Some e => (log (InsertTask t) db, RunError e)
  | None =>
      let rowid := next_rowid db in
      let row := {| id := rowid; title := sqlite_text t;
                    completed := SQL_FALSE;
                    created_at := CURRENT_TIMESTAMP (sqlite_clock env) |} in
      ({| tasks := tasks db ++ [row];
          sqlite_sequence := rowid;
          statements := InsertTask t :: statements db |},
       RunDone rowid 1)
  end.

(** [db.run('UPDATE tasks SET completed = NOT completed WHERE id = ?', [id], cb)] *)
Definition toggle_row (param : jsstring) (r : Row) : Row :=
  if id_matches param r
  then {| id := id r; title := title r; completed := sql_not (completed r);
          created_at := created_at r |}
  else r.

Definition db_run_toggle (env : Env) (param : jsstring) (db : Database)
  : Database * RunResult :=
  match sqlite_error env with
  | Some e => (log (ToggleTask param) db, RunError e)
  | None =>
      ({| tasks := map (toggle_row param) (tasks db);
          sqlite_sequence := sqlite_sequence db;
          statements := ToggleTask param :: statements db |},
       RunDone (sqlite_sequence db)
               (length (filter (id_matches param) (tasks db))))
  end.

(** [db.run('DELETE FROM tasks WHERE id = ?', [id], cb)] *)
Definition db_run_delete (env : Env) (param : jsstring) (db : Database)
  : Database * RunResult :=
  match sqlite_error env with
  | Some e => (log (DeleteTask param) db, RunError e)
  | None =>
      ({| tasks := filter (fun r => negb (id_matches param r)) (tasks db);
          sqlite_sequence := sqlite_sequence db;
          statements := DeleteTask param :: statements db |},
       RunDone (sqlite_sequence db)
               (length (filter (id_matches param) (tasks db))))
  end.

(** ** The server: the route handlers *)

(** The JSON of a task: as [db.all] builds it from a row, and as the POST
    handler builds it by hand. *)
Record TaskJson := {
  j_id : JsValue;
  j_title : JsValue;
  j_completed : JsValue;
  j_created_at : JsValue
}.

Definition row_json (r : Row) : TaskJson :=
  {| j_id := JNumber (id r);
     j_title := JString (title r);
     j_completed := JNumber (completed r);
     j_created_at := JString (created_at r) |}.

Inductive Body :=
| ErrorBody (error : jsstring)
| SuccessBody
| TaskBody (task : TaskJson)
| TasksBody (rows : list TaskJson).

Record Response := { status : Z; body : Body }.

(** [res.json(b)] and [res.status(code).json({ error: msg })]. *)
Definition json (b : Body) : Response := {| status := 200; body := b |}.
Definition error_json (code : Z) (msg : string) : Response :=
  {| status := code; body := ErrorBody (lit msg) |}.

(** [app.get('/api/tasks', ...)] *)
Definition get_tasks (env : Env) (db : Database) : Database * Response :=
  match db_all_tasks env db with
  | (db', inl _) => (db', error_json 500 "Database error")
  | (db', inr rows) => (db', json (TasksBody (map row_json rows)))
  end.

(** [app.post('/api/tasks', ...)]; [title] is [req.body.title]. *)
Definition post_tasks (env : Env) (title : JsValue) (db : Database)
  : Database * Response :=
  if negb (validateTaskTitle title)
  then (db, error_json 400
              "Invalid title. Must be 1-200 characters and contain no scripts.")
  else
    match title with
    | JString s =>
        let sanitizedTitle := trim s in
        match db_run_insert env sanitizedTitle db with
        | (db', RunError _) => (db', error_json 500 "Database error")
        | (db', RunDone lastID _) =>
            (db', json (TaskBody
                          {| j_id := JNumber lastID;
                             j_title := JString sanitizedTitle;
                             j_completed := JBool false;
                             j_created_at :=
                               JString (toISOString (js_clock env)) |}))
        end
    | _ =>
        (* [title.trim] on a non-string: unreachable past the validation *)
        (db, error_json 500 "Internal server error")
    end.

(** [app.put('/api/tasks/:id/toggle', ...)]; [id] is [req.params.id]. *)
Definition put_toggle (env : Env) (id : jsstring) (db : Database)
  : Database * Response :=
  if negb (test_digits id)
  then (db, error_json 400 "Invalid task ID")
  else
    match db_run_toggle env id db with
    | (db', RunError _) => (db', error_json 500 "Database error")
    | (db', RunDone _ changes) =>
        if (changes =? 0)%nat
        then (db', error_json 404 "Task not found")
        else (db', json SuccessBody)
    end.

(** [app.delete('/api/tasks/:id', ...)] *)
Definition delete_task (env : Env) (id : jsstring) (db : Database)
  : Database * Response :=
  if negb (test_digits id)
  then (db, error_json 400 "Invalid task ID")
  else
    match db_run_delete env id db with
    | (db', RunError _) => (db', error_json 500 "Database error")
    | (db', RunDone _ changes) =>
        if (changes =? 0)%nat
        then (db', error_json 404 "Task not found")
        else (db', json SuccessBody)
    end.

(** The four failure and success responses the handlers send. *)
Definition validation_error : Response :=
  error_json 400
    "Invalid title. Must be 1-200 characters and contain no scripts.".
Definition request_format_error : Response := error_json 400 "Invalid task ID".
Definition not_found_error : Response := error_json 404 "Task not found".
Definition storage_error : Response := error_json 500 "Database error".
Definition success : Response := json SuccessBody.

(** The store operations of the specification, as requests. *)
Inductive Request :=
| OpList
| OpCreate (title : JsValue)
| OpToggle (id : jsstring)
| OpDelete (id : jsstring).

Definition handle (env : Env) (rq : Request) (db : Database)
  : Database * Response :=
  match rq with
  | OpList => get_tasks env db
  | OpCreate t => post_tasks env t db
  | OpToggle i => put_toggle env i db
  | OpDelete i => delete_task env i db
  end.

(** What [List()] reports when the driver works: the rows of the table in
    the order of the SELECT. *)
Definition listing (db : Database) : list Row :=
  order_by_created_at_desc (tasks db).

(** A request environment in which the driver reports no error. *)
Definition working (env : Env) : Prop := sqlite_error env = None.

(** ** public/script.js: rendering *)

Module Client.

(** A task as the client holds it, parsed from the server's JSON:
    [completed] is 0 or 1 when it comes from the table and [false] when
    it comes from the POST response, and is only ever tested for
    truthiness. *)
Record Task := {
  id : Z;
  title : jsstring;
  completed : JsValue;
  created_at : jsstring
}.

(** [s.replace(/c/g, by)] for a one-character pattern and a replacement
    without [$]. *)
Definition replace_all (c : code_unit) (by_ : jsstring) (s : jsstring)
  : jsstring :=
  flat_map (fun x => if (x =? c)%N then by_ else [x]) s.

Definition amp : code_unit := 38%N.
Definition lt : code_unit := 60%N.
Definition gt : code_unit := 62%N.
Definition dquote : code_unit := 34%N.
Definition squote : code_unit := 39%N.

(** [function escapeHtml(unsafe)] *)
Definition escapeHtml (unsafe : jsstring) : jsstring :=
  replace_all squote (lit "&#039;")
    (replace_all dquote (lit "&quot;")
       (replace_all gt (lit "&gt;")
          (replace_all lt (lit "&lt;")
             (replace_all amp (lit "&amp;") unsafe)))).

(** Number to string, for [${task.id}]: the decimal digits of the integer,
    which is what JavaScript prints for the integers a number holds
    exactly, up to 2^53 in magnitude. *)
Definition number_toString (n : Z) : jsstring :=
  lit (DecimalString.NilZero.string_of_int (Z.to_int n)).

Definition q : jsstring := [dquote].
Definition nl (indent : nat) : jsstring := 10%N :: repeat 32%N indent.

Section Render.

(** [formatDate] goes through [toLocaleDateString], which depends on
    the browser's locale and time zone. *)
Variable formatDate : jsstring -> jsstring.

Definition class_if_completed (t : Task) (cls : string) : jsstring :=
  if truthy (completed t) then lit cls else [].

(** The template of one task, up to the title. *)
Definition item_open (t : Task) : jsstring :=
  nl 8 ++ lit "<div class=" ++ q ++ lit "task-item "
    ++ class_if_completed t "completed" ++ q
    ++ lit " data-task-id=" ++ q ++ number_toString (id t) ++ q ++ lit ">"
  ++ nl 12 ++ lit "<div class=" ++ q ++ lit "task-checkbox "
    ++ class_if_completed t "checked" ++ q ++ lit " "
  ++ nl 17 ++ lit "onclick=" ++ q ++ lit "toggleTask("
    ++ number_toString (id t) ++ lit ")" ++ q ++ lit "></div>"
  ++ nl 12 ++ lit "<div class=" ++ q ++ lit "task-title "
    ++ class_if_completed t "completed" ++ q ++ lit ">".

(** The template of one task, after the title. *)
Definition item_close (t : Task) : jsstring :=
  lit "</div>"
  ++ nl 12 ++ lit "<div class=" ++ q ++ lit "task-date" ++ q ++ lit ">"
    ++ formatDate (created_at t) ++ lit "</div>"
  ++ nl 12 ++ lit "<div class=" ++ q ++ lit "task-actions" ++ q ++ lit ">"
  ++ nl 16 ++ lit "<button class=" ++ q ++ lit "btn-small btn-delete" ++ q
    ++ lit " onclick=" ++ q ++ lit "deleteTask("
    ++ number_toString (id t) ++ lit ")" ++ q ++ lit ">Delete</button>"
  ++ nl 12 ++ lit "</div>"
  ++ nl 8 ++ lit "</div>"
  ++ nl 4.

Definition render_task (t : Task) : jsstring :=
  item_open t ++ escapeHtml (title t) ++ item_close t.

Definition empty_state : jsstring :=
  nl 12 ++ lit "<div class=" ++ q ++ lit "empty-state" ++ q ++ lit ">"
  ++ nl 16 ++ lit "<h3>No tasks yet!</h3>"
  ++ nl 16 ++ lit "<p>Add your first task above to get started.</p>"
  ++ nl 12 ++ lit "</div>"
  ++ nl 8.

(** [function renderTasks()]: the value assigned to
    [taskList.innerHTML] for the task array [tasks]. *)
Definition renderTasks (tasks : list Task) : jsstring :=
  match tasks with
  | [] => empty_state
  | _ :: _ => concat (map render_task tasks)
  end.

End Render.

(** The characters that open or close markup and attribute values. *)
Definition is_markup (c : code_unit) : bool :=
  ((c =? lt) || (c =? gt) || (c =? dquote) || (c =? squote))%N.

Definition markup_count (s : jsstring) : nat := length (filter is_markup s).

Definition with_title (s : jsstring) (t : Task) : Task :=
  {| id := id t; title := s; completed := completed t;
     created_at := created_at t |}.

(** The checks of [addTask] before it sends the request: the input is
    trimmed first, then tested.  [None] when the client shows an error
    and sends nothing, otherwise the title it posts. *)
Definition addTask_title (input : jsstring) : option jsstring :=
  let title := trim input in
  match title with
  | [] => None
  | _ :: _ => if (200 <? length title) then None else Some title
  end.

End Client.

(** ** The vocabulary of the specification *)

(** [s] contains the literal substring [pat]. *)
Definition contains (s pat : jsstring) : Prop :=
  exists l r, s = l ++ pat ++ r.

Definition forbidden (s : jsstring) : Prop :=
  contains s (lit "<script") \/ contains s (lit "javascript:").

(** A non-empty string of white space only, such as a single space. *)
Definition whitespace_only (s : jsstring) : Prop :=
  s <> [] /\ Forall (fun c => isWhiteSpace c = true) s.

(** The title rule in the specification's words: a non-empty string whose
    length after trimming is between 1 and 200 and which contains neither
    forbidden substring. *)
Definition spec_title_rule (title : JsValue) : Prop :=
  exists s, title = JString s /\ s <> []
            /\ 1 <= length (trim s) <= 200 /\ ~ forbidden s.

(** The same rule with the length read before trimming. *)
Definition received_title_rule (title : JsValue) : Prop :=
  exists s, title = JString s /\ 1 <= length s <= 200 /\ ~ forbidden s.

(** The rule with only its upper bound read before trimming. *)
Definition amended_title_rule (title : JsValue) : Prop :=
  exists s, title = JString s
            /\ 1 <= length (trim s) /\ length s <= 200 /\ ~ forbidden s.

(** Well-formed UTF-16: every surrogate code unit is half of a high-low
    pair. *)
Fixpoint well_formed (s : jsstring) : bool :=
  match s with
  | [] => true
  | c :: s' =>
      if isHighSurrogate c
      then match s' with
           | d :: s'' => isLowSurrogate d && well_formed s''
           | [] => false
           end
      else negb (isLowSurrogate c) && well_formed s'
  end.

(** How one code unit of a bound string comes back from the table. *)
Definition stored_as (a b : code_unit) : Prop :=
  b = a \/ b = REPLACEMENT_CHARACTER.

(** A non-empty string of decimal digits only. *)
Definition decimal_literal (s : jsstring) : Prop :=
  s <> [] /\ Forall (fun c => (48 <= c <= 57)%N) s.

(** Every stored title is non-empty and at most 200 characters long. *)
Definition title_invariant (db : Database) : Prop :=
  Forall (fun r => 1 <= length (title r) <= 200) (tasks db).

Definition titles_at_most_200 (db : Database) : Prop :=
  Forall (fun r => length (title r) <= 200) (tasks db).

(** The two listing orders: newest first, and newest first with the larger
    id first among equal timestamps. *)
Definition newest_first (r1 r2 : Row) : Prop :=
  text_compare (created_at r1) (created_at r2) <> Lt.

Definition newest_first_then_id (r1 r2 : Row) : Prop :=
  text_compare (created_at r1) (created_at r2) = Gt
  \/ (created_at r1 = created_at r2 /\ (id r2 < id r1)%Z).

(** The first row stored under a given id. *)
Definition find_task (X : Z) (db : Database) : option Row :=
  find (fun r => (id r =? X)%Z) (tasks db).

(** A row with its flag negated and nothing else changed. *)
Definition negated (r : Row) : Row :=
  {| id := id r; title := title r; completed := sql_not (completed r);
     created_at := created_at r |}.

(** The flag of the task with a given id, if there is one. *)
Definition completed_of (X : Z) (db : Database) : option Z :=
  option_map completed (find_task X db).

(** Every stored flag is one of SQLite's two booleans. *)
Definition flags_boolean (db : Database) : Prop :=
  Forall (fun r => completed r = SQL_FALSE \/ completed r = SQL_TRUE)
         (tasks db).

(** The states the server can be in: the empty database after any
    sequence of requests. *)
Inductive reachable : Database -> Prop :=
| reachable_empty : reachable empty_database
| reachable_step env rq db :
    reachable db -> reachable (fst (handle env rq db)).

(** Shapes of timestamps: [9] in a pattern stands for any decimal digit,
    every other character for itself. *)
Fixpoint has_shape (pattern s : jsstring) : bool :=
  match pattern, s with
  | [], [] => true
  | p :: pattern', c :: s' =>
      (if (p =? 57)%N then isDigit c else (c =? p)%N) && has_shape pattern' s'
  | _, _ => false
  end.

Definition iso8601_utc (s : jsstring) : bool :=
  has_shape (lit "9999-99-99T99:99:99.999Z") s.

Definition sqlite_datetime (s : jsstring) : bool :=
  has_shape (lit "9999-99-99 99:99:99") s.

(** ** Sample requests *)

Definition morning : UtcTime :=
  {| year := 2024; month := 5; day := 17;
     hour := 9; minute := 30; second := 12; millis := 345 |}.

Definition seconds_later (n : N) (t : UtcTime) : UtcTime :=
  {| year := year t; month := month t; day := day t;
     hour := hour t; minute := minute t; second := second t + n;
     millis := millis t |}.

(** A request served at clock reading [t] by a working driver. *)
Definition at_time (t : UtcTime) : Env :=
  {| sqlite_error := None; sqlite_clock := t; js_clock := t |}.

Definition disk_failure : Env :=
  {| sqlite_error := Some (lit "SQLITE_IOERR: disk I/O error");
     sqlite_clock := morning; js_clock := morning |}.

Definition space : jsstring := lit " ".
Definition letters (n : nat) : jsstring := repeat 97%N n.

(** 201 code units as received, 200 once trimmed. *)
Definition padded_200 : jsstring := space ++ letters 200.

(** The database after [Create("Buy milk")] on the empty database. *)
Definition one_task : Database :=
  fst (post_tasks (at_time morning) (JString (lit "Buy milk")) empty_database).

(** The database after [Create] of each title in turn, all served at the
    same clock reading. *)
Definition created_in_turn (t : UtcTime) (titles : list string) : Database :=
  fold_left (fun db s => fst (post_tasks (at_time t) (JString (lit s)) db))
            titles empty_database.

(** ** public/script.js: the page and its event handlers *)

Module Browser.

(** The page's state: the global [tasks] array, the value of the input
    box, and the text of the error banner while it is shown (the timer
    that hides it after five seconds is left out). *)
Record Page := {
  tasks : list Client.Task;
  taskInput : jsstring;
  errorMessage : option jsstring
}.

(** What [fetch] does: it reaches the server, or it rejects with an error
    carrying a message. *)
Inductive Network :=
| Online
| Offline (message : jsstring).

Definition showError (message : jsstring) (p : Page) : Page :=
  {| tasks := tasks p; taskInput := taskInput p;
     errorMessage := Some message |}.

Definition hideError (p : Page) : Page :=
  {| tasks := tasks p; taskInput := taskInput p; errorMessage := None |}.

(** [a || 'fallback'] on strings: the empty string is falsy. *)
Definition or_default (a : jsstring) (fallback : string) : jsstring :=
  match a with
  | [] => lit fallback
  | _ :: _ => a
  end.

(** [response.ok]: a status from 200 to 299. *)
Definition ok (r : Response) : bool :=
  ((200 <=? status r) && (status r <=? 299))%Z.

(** [(await response.json()).error]; the empty string stands for a body
    without that field. *)
Definition error_of (r : Response) : jsstring :=
  match body r with
  | ErrorBody e => e
  | _ => []
  end.

(** A task object of a response, as the client's code reads it. *)
Definition task_of_json (j : TaskJson) : option Client.Task :=
  match j_id j, j_title j, j_created_at j with
  | JNumber n, JString t, JString c =>
      Some {| Client.id := n; Client.title := t;
              Client.completed := j_completed j; Client.created_at := c |}
  | _, _, _ => None
  end.

Fixpoint tasks_of_json (js : list TaskJson) : option (list Client.Task) :=
  match js with
  | [] => Some []
  | j :: js' =>
      match task_of_json j, tasks_of_json js' with
      | Some t, Some ts => Some (t :: ts)
      | _, _ => None
      end
  end.

(** [function updateStats()]: the two labels under the list. *)
Definition total (ts : list Client.Task) : nat := length ts.

Definition completed (ts : list Client.Task) : nat :=
  length (filter (fun t => truthy (Client.completed t)) ts).

Definition updateStats (ts : list Client.Task) : jsstring * jsstring :=
  (Client.number_toString (Z.of_nat (total ts)) ++ lit " task"
     ++ (if (total ts =? 1)%nat then [] else lit "s"),
   Client.number_toString (Z.of_nat (completed ts)) ++ lit " completed").

(** [async function loadTasks()] *)
Definition loadTasks (net : Network) (env : Env) (p : Page) (db : Database)
  : Page * Database :=
  let failed := showError (lit "Failed to load tasks. Please refresh the page.") in
  match net with
  | Offline _ => (failed p, db)
  | Online =>
      let (db', response) := get_tasks env db in
      if negb (ok response) then (failed p, db')
      else
        match body response with
        | TasksBody rows =>
            match tasks_of_json rows with
            | Some ts =>
                ({| tasks := ts; taskInput := taskInput p;
                    errorMessage := errorMessage p |}, db')
            | None => (failed p, db')
            end
        | _ => (failed p, db')
        end
  end.

(** [async function addTask()] *)
Definition addTask (net : Network) (env : Env) (p : Page) (db : Database)
  : Page * Database :=
  let title := trim (taskInput p) in
  match title with
  | [] => (showError (lit "Please enter a task title") p, db)
  | _ :: _ =>
      if (200 <? length title)
      then (showError (lit "Task title must be 200 characters or less") p, db)
      else
        let caught message :=
          showError (or_default message "Failed to add task. Please try again.") in
        match net with
        | Offline message => (caught message p, db)
        | Online =>
            let (db', response) := post_tasks env (JString title) db in
            if negb (ok response)
            then (caught (or_default (error_of response) "Failed to add task") p,
                  db')
            else
              match body response with
              | TaskBody j =>
                  match task_of_json j with
                  | Some newTask =>
                      ({| tasks := newTask :: tasks p;
                          taskInput := [];
                          errorMessage := None |}, db')
                  | None => (caught [] p, db')
                  end
              | _ => (caught [] p, db')
              end
        end
  end.

(** [tasks.find(t => t.id === taskId)] followed by
    [task.completed = !task.completed]: the first match is changed. *)
Fixpoint toggle_first (taskId : Z) (ts : list Client.Task)
  : list Client.Task :=
  match ts with
  | [] => []
  | t :: ts' =>
      if (Client.id t =? taskId)%Z
      then {| Client.id := Client.id t; Client.title := Client.title t;
              Client.completed := JBool (negb (truthy (Client.completed t)));
              Client.created_at := Client.created_at t |} :: ts'
      else t :: toggle_first taskId ts'
  end.

(** [async function toggleTask(taskId)] *)
Definition toggleTask (net : Network) (env : Env) (taskId : Z)
           (p : Page) (db : Database) : Page * Database :=
  let caught message :=
    showError (or_default message "Failed to update task. Please try again.") in
  match net with
  | Offline message => (caught message p, db)
  | Online =>
      let (db', response) :=
        put_toggle env (Client.number_toString taskId) db in
      if negb (ok response)
      then (caught (or_default (error_of response) "Failed to update task") p,
            db')
      else ({| tasks := toggle_first taskId (tasks p);
               taskInput := taskInput p;
               errorMessage := errorMessage p |}, db')
  end.

(** [async function deleteTask(taskId)]; [confirmed] is the user's answer
    to the [confirm] dialog. *)
Definition deleteTask (net : Network) (env : Env) (confirmed : bool)
           (taskId : Z) (p : Page) (db : Database) : Page * Database :=
  if negb confirmed then (p, db)
  else
    let caught message :=
      showError (or_default message "Failed to delete task. Please try again.") in
    match net with
    | Offline message => (caught message p, db)
    | Online =>
        let (db', response) :=
          delete_task env (Client.number_toString taskId) db in
        if negb (ok response)
        then (caught (or_default (error_of response) "Failed to delete task") p,
              db')
        else ({| tasks := filter (fun t => negb (Client.id t =? taskId)%Z)
                                 (tasks p);
                 taskInput := taskInput p;
                 errorMessage := errorMessage p |}, db')
    end.

End Browser.

(** ** Further vocabulary *)

(** Any sequence of requests, from one database to a later one. *)
Inductive steps : Database -> Database -> Prop :=
| steps_refl db : steps db db
| steps_cons env rq db db' :
    steps (fst (handle env rq db)) db' -> steps db db'.

(** The ids of the table grow along the scan, lie between 1 and the
    recorded sequence value, and so are pairwise distinct. *)
Definition ids_increasing (db : Database) : Prop :=
  StronglySorted Z.lt (map id (tasks db))
  /\ Forall (fun r => (1 <= id r <= sqlite_sequence db)%Z) (tasks db).

(** A string that neither starts nor ends with white space. *)
Definition trimmed (s : jsstring) : Prop :=
  (forall c s', s = c :: s' -> isWhiteSpace c = false)
  /\ (forall c s', s = s' ++ [c] -> isWhiteSpace c = false).

(** What [escapeHtml] does to one code unit. *)
Definition escape_char (c : code_unit) : jsstring :=
  if (c =? Client.amp)%N then lit "&amp;"
  else if (c =? Client.lt)%N then lit "&lt;"
  else if (c =? Client.gt)%N then lit "&gt;"
  else if (c =? Client.dquote)%N then lit "&quot;"
  else if (c =? Client.squote)%N then lit "&#039;"
  else [c].

Definition html_special (c : code_unit) : bool :=
  ((c =? Client.amp) || Client.is_markup c)%N.

(** The mirror agrees with the listing: the same tasks in the same order,
    with the same id and title and the same truth value of the flag. *)
Definition agrees (t : Client.Task) (r : Row) : Prop :=
  Client.id t = id r
  /\ Client.title t = title r
  /\ truthy (Client.completed t) = negb (completed r =? 0)%Z.

Definition in_sync (p : Browser.Page) (db : Database) : Prop :=
  Forall2 agrees (Browser.tasks p) (listing db).

(** The error banner is shown with some text. *)
Definition raised (p : Browser.Page) : Prop :=
  exists m, Browser.errorMessage p = Some m /\ m <> [].

(** The task the client puts in its mirror after a successful Create. *)
Definition shown_task (n : Z) (t : jsstring) (now : UtcTime) : Client.Task :=
  {| Client.id := n; Client.title := t; Client.completed := JBool false;
     Client.created_at := toISOString now |}.

(** A task of the mirror as [loadTasks] reads it from a row. *)
Definition task_of_row (r : Row) : Client.Task :=
  {| Client.id := id r; Client.title := title r;
     Client.completed := JNumber (completed r);
     Client.created_at := created_at r |}.

(** * Properties *)

(** ** Strings *)

Lemma startsWith_spec (s pat : jsstring) :
  startsWith s pat = true <-> exists r, s = pat ++ r.
Proof.
  revert s; induction pat as [|p pat IH]; intros s; simpl.
  - split; [intros _; now exists s | reflexivity].
  - destruct s as [|c s].
    + split; [discriminate | intros [r Hr]; discriminate].
    + rewrite andb_true_iff, N.eqb_eq, IH. split.
      * intros [-> [r ->]]. now exists r.
      * intros [r Hr]. injection Hr as -> ->. split; [reflexivity | now exists r].
Qed.

Lemma includes_spec (s pat : jsstring) :
  includes s pat = true <-> contains s pat.
Proof.
  unfold contains. induction s as [|c s IH].
  - simpl. rewrite orb_false_r, startsWith_spec. split.
    + intros [r Hr]. exists [], r. exact Hr.
    + intros [l [r Hr]]. destruct l; [now exists r | discriminate].
  - cbn [includes]. rewrite orb_true_iff, startsWith_spec, IH. split.
    + intros [[r Hr] | [l [r Hr]]].
      * exists [], r. exact Hr.
      * exists (c :: l), r. simpl. now rewrite Hr.
    + intros [l [r Hr]]. destruct l as [|x l].
      * left. now exists r.
      * right. injection Hr as _ Hr. now exists l, r.
Qed.

Lemma includes_false_iff (s pat : jsstring) :
  includes s pat = false <-> ~ contains s pat.
Proof.
  rewrite <- includes_spec. destruct (includes s pat); split; intros; congruence.
Qed.

Lemma trimStart_length (s : jsstring) : length (trimStart s) <= length s.
Proof.
  induction s as [|c s IH]; simpl; [lia|].
  destruct (isWhiteSpace c); simpl; lia.
Qed.

Lemma trim_length (s : jsstring) : length (trim s) <= length s.
Proof.
  unfold trim, trimEnd. rewrite length_rev.
  etransitivity; [apply trimStart_length|].
  rewrite length_rev. apply trimStart_length.
Qed.

Lemma trimStart_nil_iff (s : jsstring) :
  trimStart s = [] <-> Forall (fun c => isWhiteSpace c = true) s.
Proof.
  induction s as [|c s IH]; simpl.
  - split; auto.
  - destruct (isWhiteSpace c) eqn:E.
    + rewrite IH. split; [now constructor | now inversion 1].
    + split; [discriminate | inversion 1; congruence].
Qed.

Lemma trim_nil_iff (s : jsstring) :
  trim s = [] <-> Forall (fun c => isWhiteSpace c = true) s.
Proof.
  unfold trim, trimEnd. split.
  - intros H. apply (f_equal (@rev _)) in H. rewrite rev_involutive in H.
    simpl in H. apply trimStart_nil_iff in H.
    apply Forall_rev in H. rewrite rev_involutive in H.
    induction s as [|c s IH]; [constructor|].
    simpl in H. destruct (isWhiteSpace c) eqn:E.
    + constructor; auto.
    + now inversion H.
  - intros H. apply trimStart_nil_iff in H. now rewrite H.
Qed.

Lemma whitespace_only_trim (s : jsstring) :
  whitespace_only s <-> s <> [] /\ trim s = [].
Proof. unfold whitespace_only. now rewrite trim_nil_iff. Qed.

Lemma isDigit_spec (c : code_unit) :
  isDigit c = true <-> (48 <= c <= 57)%N.
Proof. unfold isDigit. rewrite andb_true_iff, !N.leb_le. tauto. Qed.

Lemma test_digits_spec (id : jsstring) :
  test_digits id = true <-> decimal_literal id.
Proof.
  unfold decimal_literal, test_digits. destruct id as [|c id].
  - split; [discriminate | intros [H _]; now elim H].
  - rewrite forallb_forall, Forall_forall. split.
    + intros H. split; [discriminate|]. intros x Hx. now apply isDigit_spec, H.
    + intros [_ H] x Hx. now apply isDigit_spec, H.
Qed.

(** ** Text as SQLite holds it *)

Lemma pair_induction (P : jsstring -> Prop) :
  P [] -> (forall c, P [c]) ->
  (forall c d s, P s -> P (d :: s) -> P (c :: d :: s)) ->
  forall s, P s.
Proof.
  intros H0 H1 H2 s.
  assert (H : P s /\ forall c, P (c :: s)); [|tauto].
  induction s as [|d s [IHs IHc]]; [now split|].
  split; [apply IHc|]. intros c. now apply H2.
Qed.

Lemma sqlite_text_pair (c d : code_unit) (s : jsstring) :
  sqlite_text (c :: d :: s)
  = if isHighSurrogate c
    then if isLowSurrogate d
         then c :: d :: sqlite_text s
         else REPLACEMENT_CHARACTER :: sqlite_text (d :: s)
    else if isLowSurrogate c
         then REPLACEMENT_CHARACTER :: sqlite_text (d :: s)
         else c :: sqlite_text (d :: s).
Proof. reflexivity. Qed.

Lemma sqlite_text_pointwise (s : jsstring) : Forall2 stored_as s (sqlite_text s).
Proof.
  induction s as [|c|c d s IH1 IH2] using pair_induction.
  - constructor.
  - simpl. destruct (isHighSurrogate c); [|destruct (isLowSurrogate c)];
      repeat constructor; now right.
  - rewrite sqlite_text_pair.
    destruct (isHighSurrogate c);
      [destruct (isLowSurrogate d) | destruct (isLowSurrogate c)];
      repeat (constructor; try (now left); try (now right)); assumption.
Qed.

Lemma sqlite_text_length (s : jsstring) : length (sqlite_text s) = length s.
Proof. symmetry. apply (Forall2_length (sqlite_text_pointwise s)). Qed.

Lemma well_formed_pair (c d : code_unit) (s : jsstring) :
  well_formed (c :: d :: s)
  = if isHighSurrogate c
    then isLowSurrogate d && well_formed s
    else negb (isLowSurrogate c) && well_formed (d :: s).
Proof. reflexivity. Qed.

Lemma sqlite_text_well_formed (s : jsstring) :
  well_formed s = true <-> sqlite_text s = s.
Proof.
  induction s as [|c|c d s IH1 IH2] using pair_induction.
  - now split.
  - simpl. destruct (isHighSurrogate c) eqn:Eh;
      [|destruct (isLowSurrogate c) eqn:El]; simpl; split;
      try discriminate; try reflexivity;
      intros H; injection H as <-; discriminate.
  - rewrite sqlite_text_pair, well_formed_pair.
    destruct (isHighSurrogate c) eqn:Eh.
    + destruct (isLowSurrogate d) eqn:El; cbn [andb].
      * split.
        -- intros H. apply IH1 in H. now rewrite H.
        -- intros H. apply IH1. now injection H.
      * split; [discriminate|]. intros H. injection H as <- _. discriminate.
    + destruct (isLowSurrogate c) eqn:El; cbn [andb negb].
      * split; [discriminate|]. intros H. injection H as <- _. discriminate.
      * split.
        -- intros H. apply IH2 in H. now rewrite H.
        -- intros H. apply IH2. now injection H.
Qed.

Lemma whitespace_is_no_surrogate (c : code_unit) :
  isWhiteSpace c = true ->
  isHighSurrogate c = false /\ isLowSurrogate c = false.
Proof.
  unfold isWhiteSpace, isHighSurrogate, isLowSurrogate. intros H.
  apply orb_true_iff in H. destruct H as [H|H].
  - apply existsb_exists in H. destruct H as [w [Hw E]].
    apply N.eqb_eq in E. subst w. simpl in Hw.
    repeat (destruct Hw as [<-|Hw]; [split; reflexivity|]). now elim Hw.
  - apply andb_true_iff in H. destruct H as [H1 H2].
    apply N.leb_le in H1, H2.
    split; apply andb_false_iff; left; apply N.leb_gt; lia.
Qed.

Lemma well_formed_skip (c : code_unit) (s : jsstring) :
  isWhiteSpace c = true -> well_formed (c :: s) = well_formed s.
Proof.
  intros H. destruct (whitespace_is_no_surrogate c H) as [Hh Hl].
  simpl. now rewrite Hh, Hl.
Qed.

Lemma trimStart_well_formed (s : jsstring) :
  well_formed (trimStart s) = well_formed s.
Proof.
  induction s as [|c s IH]; [reflexivity|].
  cbn [trimStart]. destruct (isWhiteSpace c) eqn:E; [|reflexivity].
  now rewrite (well_formed_skip c s E).
Qed.

Lemma well_formed_whitespace (r : jsstring) :
  Forall (fun c => isWhiteSpace c = true) r -> well_formed r = true.
Proof.
  induction 1 as [|c r Hc _ IH]; [reflexivity|].
  now rewrite (well_formed_skip c r Hc).
Qed.

Lemma well_formed_app_whitespace (s r : jsstring) :
  Forall (fun c => isWhiteSpace c = true) r ->
  well_formed (s ++ r) = well_formed s.
Proof.
  intros Hr. induction s as [|c|c d s IH1 IH2] using pair_induction.
  - simpl. now apply well_formed_whitespace.
  - simpl. destruct (isHighSurrogate c).
    + destruct Hr as [|d r Hd Hr']; [reflexivity|].
      destruct (whitespace_is_no_surrogate d Hd) as [_ ->]. reflexivity.
    + now rewrite (well_formed_whitespace r Hr).
  - change ((c :: d :: s) ++ r) with (c :: d :: (s ++ r)).
    rewrite !well_formed_pair.
    change (d :: s ++ r) with ((d :: s) ++ r). now rewrite IH1, IH2.
Qed.

Lemma trimStart_drops_whitespace (s : jsstring) :
  exists l, s = l ++ trimStart s /\ Forall (fun c => isWhiteSpace c = true) l.
Proof.
  induction s as [|c s [l [IH Hl]]]; simpl; [now exists []|].
  destruct (isWhiteSpace c) eqn:E.
  - exists (c :: l). simpl. split; [now rewrite <- IH | now constructor].
  - now exists [].
Qed.

Lemma trim_well_formed (s : jsstring) :
  well_formed (trim s) = well_formed s.
Proof.
  unfold trim. rewrite <- (trimStart_well_formed s).
  set (u := trimStart s). unfold trimEnd.
  destruct (trimStart_drops_whitespace (rev u)) as [l [E Hl]].
  assert (Hu : u = rev (trimStart (rev u)) ++ rev l).
  { rewrite <- rev_app_distr, <- E. now rewrite rev_involutive. }
  rewrite Hu at 2. symmetry. apply well_formed_app_whitespace.
  now apply Forall_rev.
Qed.

Lemma stored_as_whitespace (a b : code_unit) :
  stored_as a b -> isWhiteSpace a = false -> isWhiteSpace b = false.
Proof. intros [->| ->]; [trivial | reflexivity]. Qed.

(** An unpaired surrogate comes back as U+FFFD, a pair as it was: the
    title "\ud800x" is stored as U+FFFD followed by [x]. *)
Example sqlite_text_samples :
  sqlite_text [55296; 120]%N = [65533; 120]%N
  /\ sqlite_text [120; 56320]%N = [120; 65533]%N
  /\ sqlite_text [55357; 56832; 120]%N = [55357; 56832; 120]%N
  /\ sqlite_text (lit "Buy milk") = lit "Buy milk".
Proof. repeat split. Qed.

(** A pattern without U+FFFD that occurs in the stored text occurs in the
    bound string. *)
Lemma stored_as_pattern (p pat : jsstring) :
  Forall (fun b => b <> REPLACEMENT_CHARACTER) pat ->
  Forall2 stored_as p pat -> p = pat.
Proof.
  intros Hpat H. induction H as [|a b p pat [->|Hb] _ IH];
    [reflexivity | | ]; inversion Hpat; subst.
  - f_equal. now apply IH.
  - congruence.
Qed.

Lemma contains_sqlite_text (s pat : jsstring) :
  Forall (fun b => b <> REPLACEMENT_CHARACTER) pat ->
  contains (sqlite_text s) pat -> contains s pat.
Proof.
  intros Hpat [l [r E]]. pose proof (sqlite_text_pointwise s) as H.
  rewrite E in H.
  apply Forall2_app_inv_r in H. destruct H as [l' [m [_ [H ->]]]].
  apply Forall2_app_inv_r in H. destruct H as [p [r' [Hp [_ ->]]]].
  apply (stored_as_pattern p pat Hpat) in Hp. subst p. now exists l', r'.
Qed.

Lemma forbidden_sqlite_text (s : jsstring) :
  forbidden (sqlite_text s) -> forbidden s.
Proof.
  intros [H|H]; [left | right];
    (apply contains_sqlite_text; [|exact H]);
    repeat constructor; discriminate.
Qed.

(** ** Title validation *)

Lemma validateTaskTitle_string (s : jsstring) :
  validateTaskTitle (JString s) = true
  <-> 1 <= length s <= 200 /\ ~ forbidden s.
Proof.
  unfold validateTaskTitle, forbidden. rewrite <- !includes_spec.
  destruct s as [|c s].
  - simpl. split; [discriminate | intros [[H _] _]; lia].
  - cbn [truthy typeof is_string_type negb orb].
    destruct (Nat.ltb_spec (length (c :: s)) 1) as [H1|H1];
      destruct (Nat.ltb_spec 200 (length (c :: s))) as [H2|H2]; cbn [orb];
      try (split; [discriminate | intros [? _]; lia]).
    destruct (includes (c :: s) (lit "<script"));
      destruct (includes (c :: s) (lit "javascript:")); cbn [orb];
      split; try discriminate; try tauto; intros _; split; try lia;
      intros [?|?]; discriminate.
Qed.

Lemma validateTaskTitle_spec (title : JsValue) :
  validateTaskTitle title = true <-> received_title_rule title.
Proof.
  unfold received_title_rule. split.
  - intros H. destruct title as [| |b|n|s| |]; try discriminate H.
    + destruct b; discriminate H.
    + unfold validateTaskTitle in H. simpl in H.
      destruct (n =? 0)%Z; discriminate H.
    + exists s. split; [reflexivity|]. now apply validateTaskTitle_string.
  - intros [s [-> H]]. now apply validateTaskTitle_string.
Qed.

Lemma post_tasks_rejected (env : Env) (title : JsValue) (db : Database) :
  validateTaskTitle title = false ->
  post_tasks env title db = (db, validation_error).
Proof. intros H. unfold post_tasks. now rewrite H. Qed.

Lemma post_tasks_accepted (env : Env) (s : jsstring) (db : Database) :
  working env ->
  validateTaskTitle (JString s) = true ->
  post_tasks env (JString s) db =
  ({| tasks := tasks db
                 ++ [{| id := next_rowid db; title := sqlite_text (trim s);
                        completed := SQL_FALSE;
                        created_at := CURRENT_TIMESTAMP (sqlite_clock env) |}];
      sqlite_sequence := next_rowid db;
      statements := InsertTask (trim s) :: statements db |},
   json (TaskBody {| j_id := JNumber (next_rowid db);
                     j_title := JString (trim s);
                     j_completed := JBool false;
                     j_created_at := JString (toISOString (js_clock env)) |})).
Proof.
  intros Hw Hv. unfold post_tasks, db_run_insert. rewrite Hv, Hw. reflexivity.
Qed.

Lemma post_tasks_status (env : Env) (title : JsValue) (db : Database) :
  working env ->
  (status (snd (post_tasks env title db)) = 200%Z
   <-> validateTaskTitle title = true).
Proof.
  intros Hw. destruct (validateTaskTitle title) eqn:Hv.
  - apply validateTaskTitle_spec in Hv as Hr. destruct Hr as [s [-> _]].
    rewrite post_tasks_accepted by assumption. simpl. tauto.
  - rewrite post_tasks_rejected by assumption. simpl.
    split; intros; discriminate.
Qed.

Lemma contains_first_char (s pat : jsstring) (c : code_unit) :
  contains s (c :: pat) -> In c s.
Proof.
  intros [l [r ->]]. apply in_or_app. right. now left.
Qed.

Lemma whitespace_not_forbidden (s : jsstring) :
  Forall (fun c => isWhiteSpace c = true) s -> ~ forbidden s.
Proof.
  intros Hws [H|H]; apply contains_first_char in H;
    rewrite Forall_forall in Hws; apply Hws in H; discriminate H.
Qed.

(** A non-empty title of white space passes the validation whenever it is
    at most 200 code units long, and is stored trimmed, that is, empty. *)
Lemma create_whitespace_only_accepted (env : Env) (s : jsstring) (db : Database) :
  working env -> whitespace_only s -> length s <= 200 ->
  exists row,
    fst (post_tasks env (JString s) db) =
      {| tasks := tasks db ++ [row];
         sqlite_sequence := next_rowid db;
         statements := InsertTask [] :: statements db |}
    /\ title row = []
    /\ status (snd (post_tasks env (JString s) db)) = 200%Z.
Proof.
  intros Hw [Hne Hws] Hlen.
  assert (Hv : validateTaskTitle (JString s) = true).
  { apply validateTaskTitle_string. split.
    - destruct s; [now elim Hne | simpl in *; lia].
    - now apply whitespace_not_forbidden. }
  rewrite post_tasks_accepted by assumption.
  apply trim_nil_iff in Hws. rewrite Hws.
  eexists. simpl. repeat split.
Qed.

Lemma create_empty_string_rejected (env : Env) (db : Database) :
  post_tasks env (JString []) db = (db, validation_error).
Proof. reflexivity. Qed.

(** The client's own check trims before it tests for emptiness, and sends
    nothing for a blank input. *)
Lemma client_refuses_blank_input : Client.addTask_title space = None.
Proof. reflexivity. Qed.

(** C1, at the input where the code departs from it.  The claim: Create
    fails with a validation error for the empty title and for every
    whitespace-only title, and adds no task.  The code: [Create(" ")] on
    the empty database passes [validateTaskTitle], which measures the
    title before it is trimmed, answers 200 and stores a task whose title
    is the empty string, so that the listing grows from 0 to 1. *)
Theorem create_single_space_stores_empty_title :
  whitespace_only space
  /\ post_tasks (at_time morning) (JString space) empty_database =
     ({| tasks := [{| id := 1; title := []; completed := SQL_FALSE;
                      created_at := lit "2024-05-17 09:30:12" |}];
         sqlite_sequence := 1;
         statements := [InsertTask []] |},
      json (TaskBody {| j_id := JNumber 1;
                        j_title := JString [];
                        j_completed := JBool false;
                        j_created_at :=
                          JString (lit "2024-05-17T09:30:12.345Z") |}))
  /\ length (listing empty_database) = 0
  /\ length (listing (fst (post_tasks (at_time morning) (JString space)
                             empty_database))) = 1.
Proof.
  split; [|split; [|split]]; try reflexivity.
  split; [discriminate|]. repeat constructor.
Qed.

(** C3, at the input where the code departs from it.  The claim: every
    stored title is non-empty and at most 200 characters long, whatever
    operations ran.  The code: the invariant holds of the empty database
    and is lost by [Create(" ")], which stores the trimmed title, the
    empty string. *)
Theorem create_single_space_breaks_title_invariant :
  title_invariant empty_database
  /\ ~ title_invariant
       (fst (post_tasks (at_time morning) (JString space) empty_database)).
Proof.
  split; [constructor|].
  intros H. inversion H as [|r l [Hlen _] _]. simpl in Hlen. lia.
Qed.

(** ** The order of the listing *)

Lemma text_compare_antisym (a b : jsstring) :
  text_compare b a = CompOpp (text_compare a b).
Proof.
  revert b; induction a as [|x a IH]; intros [|y b]; simpl; try reflexivity.
  rewrite (N.compare_antisym x y).
  destruct (x ?= y)%N; simpl; auto.
Qed.

Lemma text_compare_eq (a b : jsstring) :
  text_compare a b = Eq <-> a = b.
Proof.
  revert b; induction a as [|x a IH]; intros [|y b]; simpl;
    try (split; [reflexivity | reflexivity]); try (split; discriminate).
  destruct (N.compare_spec x y) as [->|H|H].
  - rewrite IH. split; [now intros -> | now injection 1].
  - split; [discriminate | injection 1 as -> _; lia].
  - split; [discriminate | injection 1 as -> _; lia].
Qed.

Lemma text_compare_refl (a : jsstring) : text_compare a a = Eq.
Proof. now apply text_compare_eq. Qed.

Lemma text_compare_ge_trans (a b c : jsstring) :
  text_compare a b <> Lt -> text_compare b c <> Lt -> text_compare a c <> Lt.
Proof.
  revert b c; induction a as [|x a IH]; intros [|y b] [|z c]; simpl;
    try congruence.
  destruct (N.compare_spec x y) as [->|H|H]; try congruence.
  - destruct (N.compare_spec y z) as [->|H'|H']; try congruence.
    + apply IH.
  - intros _. destruct (N.compare_spec y z) as [->|H'|H']; try congruence.
    + intros _. destruct (N.compare_spec x z); try congruence; lia.
    + intros _. destruct (N.compare_spec x z); try congruence; lia.
Qed.

Lemma text_ltb_false (a b : jsstring) :
  text_ltb a b = false <-> text_compare a b <> Lt.
Proof.
  unfold text_ltb. destruct (text_compare a b); split; congruence.
Qed.

Lemma text_ltb_true_flip (a b : jsstring) :
  text_ltb a b = true -> text_compare b a <> Lt.
Proof.
  unfold text_ltb. rewrite (text_compare_antisym a b).
  destruct (text_compare a b); simpl; congruence.
Qed.

Lemma insert_desc_perm (r : Row) (l : list Row) :
  Permutation (insert_desc r l) (r :: l).
Proof.
  induction l as [|x l IH]; simpl; [reflexivity|].
  destruct (text_ltb (created_at r) (created_at x)); [|reflexivity].
  rewrite IH. apply perm_swap.
Qed.

Lemma order_by_created_at_desc_perm (rows : list Row) :
  Permutation (order_by_created_at_desc rows) rows.
Proof.
  induction rows as [|r rows IH]; simpl; [reflexivity|].
  rewrite insert_desc_perm. now constructor.
Qed.

Lemma in_listing (r : Row) (db : Database) :
  In r (listing db) <-> In r (tasks db).
Proof.
  unfold listing. split; apply Permutation_in;
    [|symmetry]; apply order_by_created_at_desc_perm.
Qed.

Lemma insert_desc_sorted (r : Row) (l : list Row) :
  StronglySorted newest_first l -> StronglySorted newest_first (insert_desc r l).
Proof.
  induction 1 as [|x l Hs IH Hx]; simpl.
  - repeat constructor.
  - destruct (text_ltb (created_at r) (created_at x)) eqn:E.
    + constructor; [exact IH|].
      rewrite Forall_forall. intros y Hy.
      apply (Permutation_in _ (insert_desc_perm r l)) in Hy.
      destruct Hy as [<-|Hy].
      * now apply text_ltb_true_flip.
      * rewrite Forall_forall in Hx. now apply Hx.
    + apply text_ltb_false in E.
      constructor; [now constructor|].
      constructor; [exact E|].
      rewrite Forall_forall in Hx |- *. intros y Hy.
      unfold newest_first in *.
      eapply text_compare_ge_trans; [exact E | now apply Hx].
Qed.

Lemma order_by_created_at_desc_sorted (rows : list Row) :
  StronglySorted newest_first (order_by_created_at_desc rows).
Proof.
  induction rows as [|r rows IH]; simpl; [constructor|].
  now apply insert_desc_sorted.
Qed.

(** When every row carries the same timestamp the listing is the table
    scan itself: oldest first. *)
Lemma insert_desc_tie (r : Row) (l : list Row) :
  Forall (fun x => created_at x = created_at r) l ->
  insert_desc r l = r :: l.
Proof.
  destruct 1 as [|x l Hx _]; simpl; [reflexivity|].
  unfold text_ltb. now rewrite Hx, text_compare_refl.
Qed.

Lemma order_by_created_at_desc_ties (ts : jsstring) (rows : list Row) :
  Forall (fun r => created_at r = ts) rows ->
  order_by_created_at_desc rows = rows.
Proof.
  induction 1 as [|r rows Hr Hrows IH]; simpl; [reflexivity|].
  rewrite IH. apply insert_desc_tie.
  rewrite Forall_forall in Hrows |- *. intros x Hx.
  rewrite Hr. now apply Hrows.
Qed.

(** ** Create *)

Lemma trim_nonempty_or_blank (s : jsstring) :
  ~ whitespace_only s -> (1 <= length (trim s) <-> 1 <= length s).
Proof.
  intros Hn. split.
  - pose proof (trim_length s). lia.
  - intros Hs. destruct (trim s) eqn:E; [|simpl; lia].
    elim Hn. split; [intros ->; simpl in Hs; lia | now apply trim_nil_iff].
Qed.

(** C2 as stated fails: a space followed by 200 letters has trimmed length
    200 and no forbidden substring, so the claim has Create succeed; the
    code measures the 201 code units it received and answers with the
    validation error. *)
Lemma create_rejects_padded_title_of_trimmed_length_200 :
  length (trim padded_200) = 200
  /\ ~ (status (snd (post_tasks (at_time morning) (JString padded_200)
                       empty_database)) = 200%Z
        <-> spec_title_rule (JString padded_200)).
Proof.
  split; [vm_compute; reflexivity|].
  intros [_ H].
  assert (Hs : spec_title_rule (JString padded_200)).
  { exists padded_200. split; [reflexivity|]. split; [discriminate|].
    split; [vm_compute; lia|].
    intros [Hf|Hf]; apply includes_spec in Hf; vm_compute in Hf;
      discriminate Hf. }
  apply H in Hs. vm_compute in Hs. discriminate Hs.
Qed.

(** C2, amended: for every title other than a whitespace-only string,
    Create succeeds if and only if the title is a string whose trimmed
    length is at least 1, whose length as received (before trimming) is at
    most 200, and which contains neither forbidden substring; otherwise it
    answers with the validation error and leaves the database as it was.
    In particular a title of received length 200 is accepted, one of
    received length 201 is rejected, one of trimmed length 201 is
    rejected.  On success the stored title is the trimmed form of the
    input as SQLite holds it: the trimmed form itself when the title is
    well-formed UTF-16, and otherwise the trimmed form with each unpaired
    surrogate replaced by U+FFFD; the new row is in the listing. *)
Theorem create_succeeds_iff_amended_rule
        (env : Env) (db : Database) (v : JsValue) :
  working env ->
  (forall s, v = JString s -> ~ whitespace_only s) ->
  (status (snd (post_tasks env v db)) = 200%Z <-> amended_title_rule v)
  /\ (~ amended_title_rule v -> post_tasks env v db = (db, validation_error))
  /\ (forall s, v = JString s ->
        (length s = 200 -> ~ forbidden s ->
         status (snd (post_tasks env v db)) = 200%Z)
        /\ (length s = 201 -> post_tasks env v db = (db, validation_error))
        /\ (length (trim s) = 201 ->
            post_tasks env v db = (db, validation_error))
        /\ (status (snd (post_tasks env v db)) = 200%Z ->
            exists row,
              tasks (fst (post_tasks env v db)) = tasks db ++ [row]
              /\ title row = sqlite_text (trim s)
              /\ (well_formed s = true -> title row = trim s)
              /\ In row (listing (fst (post_tasks env v db))))).
Proof.
  intros Hw Hnb.
  assert (Hrule : amended_title_rule v <-> validateTaskTitle v = true).
  { rewrite validateTaskTitle_spec. unfold amended_title_rule, received_title_rule.
    split; intros [s [-> H]]; exists s; (split; [reflexivity|]);
      pose proof (trim_nonempty_or_blank s (Hnb s eq_refl)); intuition lia. }
  split; [|split].
  - rewrite Hrule. now apply post_tasks_status.
  - intros Hn. apply post_tasks_rejected.
    destruct (validateTaskTitle v); [elim Hn; now apply Hrule | reflexivity].
  - intros s ->. repeat split.
    + intros Hlen Hf. apply post_tasks_status; [assumption|].
      apply validateTaskTitle_string. split; [lia | assumption].
    + intros Hlen. apply post_tasks_rejected.
      destruct (validateTaskTitle (JString s)) eqn:E; [|reflexivity].
      apply validateTaskTitle_string in E. lia.
    + intros Hlen. apply post_tasks_rejected.
      destruct (validateTaskTitle (JString s)) eqn:E; [|reflexivity].
      apply validateTaskTitle_string in E. pose proof (trim_length s). lia.
    + intros Hst. apply post_tasks_status in Hst; [|assumption].
      rewrite post_tasks_accepted by assumption.
      eexists. split; [reflexivity|]. split; [reflexivity|]. split.
      * intros Hwf. cbn [title]. apply sqlite_text_well_formed.
        now rewrite trim_well_formed.
      * apply in_listing. simpl. apply in_or_app. right. now left.
Qed.

Lemma create_succeeds_iff_amended_rule_witness :
  working (at_time morning)
  /\ (status (snd (post_tasks (at_time morning) (JString (lit "  Buy milk "))
                          empty_database)) = 200%Z
  <-> amended_title_rule (JString (lit "  Buy milk "))).
Proof.
  split; [reflexivity|].
  apply (create_succeeds_iff_amended_rule (at_time morning)
           empty_database (JString (lit "  Buy milk "))).
  - reflexivity.
  - intros s Hs Hws. injection Hs as <-.
    apply whitespace_only_trim in Hws. destruct Hws as [_ Hws].
    vm_compute in Hws. discriminate Hws.
Defined.

(** C6: every title that contains the literal substring [<script] or the
    literal substring [javascript:] is refused with the validation error,
    whatever the driver's state, and the database is left as it was.  The
    test is case-sensitive: the same Create with [<SCRIPT>] or
    [JavaScript:] in the title gets past it. *)
Theorem create_rejects_forbidden_substrings
        (env : Env) (db : Database) (s : jsstring) :
  contains s (lit "<script") \/ contains s (lit "javascript:") ->
  post_tasks env (JString s) db = (db, validation_error)
  /\ validateTaskTitle (JString (lit "<SCRIPT>alert(1)</SCRIPT>")) = true
  /\ validateTaskTitle (JString (lit "JavaScript:alert(1)")) = true.
Proof.
  intros Hf. split; [|split; reflexivity].
  apply post_tasks_rejected.
  destruct (validateTaskTitle (JString s)) eqn:E; [|reflexivity].
  apply validateTaskTitle_string in E. now elim (proj2 E).
Qed.

Lemma create_rejects_forbidden_substrings_witness :
  post_tasks (at_time morning) (JString (lit "hi <script>alert(1)</script>"))
             empty_database = (empty_database, validation_error)
  /\ post_tasks (at_time morning) (JString (lit "see javascript:void(0)"))
                empty_database = (empty_database, validation_error).
Proof.
  split.
  - apply (create_rejects_forbidden_substrings (at_time morning) empty_database
             (lit "hi <script>alert(1)</script>")).
    left. exists (lit "hi "), (lit ">alert(1)</script>"). reflexivity.
  - apply (create_rejects_forbidden_substrings (at_time morning) empty_database
             (lit "see javascript:void(0)")).
    right. exists (lit "see "), (lit "void(0)"). reflexivity.
Defined.

(** ** Identifier validation *)

Lemma test_digits_false (id : jsstring) :
  ~ decimal_literal id -> test_digits id = false.
Proof.
  intros H. destruct (test_digits id) eqn:E; [|reflexivity].
  elim H. now apply test_digits_spec.
Qed.

(** C7: for every id parameter that is not a non-empty string of decimal
    digits, Toggle and Delete answer with the request-format error (400,
    "Invalid task ID"), which differs from not-found (404) in status and
    in message.  The answer does not depend on the driver, and the
    database comes back unchanged, its log of statements included: nothing
    was sent to storage. *)
Theorem malformed_id_rejected_before_storage
        (env : Env) (db : Database) (id : jsstring) :
  ~ decimal_literal id ->
  put_toggle env id db = (db, request_format_error)
  /\ delete_task env id db = (db, request_format_error)
  /\ statements (fst (put_toggle env id db)) = statements db
  /\ statements (fst (delete_task env id db)) = statements db
  /\ status request_format_error <> status not_found_error
  /\ body request_format_error <> body not_found_error.
Proof.
  intros H. apply test_digits_false in H.
  unfold put_toggle, delete_task. rewrite H. simpl.
  repeat split; discriminate.
Qed.

Lemma malformed_id_rejected_before_storage_witness :
  put_toggle disk_failure (lit "abc") empty_database
    = (empty_database, request_format_error)
  /\ delete_task (at_time morning) (lit "-1") empty_database
     = (empty_database, request_format_error)
  /\ put_toggle (at_time morning) (lit " 1") empty_database
     = (empty_database, request_format_error)
  /\ delete_task (at_time morning) (lit "1.5") empty_database
     = (empty_database, request_format_error)
  /\ put_toggle (at_time morning) [] empty_database
     = (empty_database, request_format_error).
Proof.
  assert (Hbad : forall id, test_digits id = false -> ~ decimal_literal id).
  { intros id E H. apply test_digits_spec in H. congruence. }
  split; [|split; [|split; [|split]]].
  - apply (malformed_id_rejected_before_storage disk_failure empty_database
             (lit "abc")). now apply Hbad.
  - apply (malformed_id_rejected_before_storage (at_time morning) empty_database
             (lit "-1")). now apply Hbad.
  - apply (malformed_id_rejected_before_storage (at_time morning) empty_database
             (lit " 1")). now apply Hbad.
  - apply (malformed_id_rejected_before_storage (at_time morning) empty_database
             (lit "1.5")). now apply Hbad.
  - apply (malformed_id_rejected_before_storage (at_time morning) empty_database
             []). now apply Hbad.
Defined.

(** ** Toggle and Delete *)

Lemma id_matches_iff (x : jsstring) (r : Row) :
  test_digits x = true ->
  (id_matches x r = true <-> id r = decimal_value x).
Proof.
  intros Hd. unfold id_matches. rewrite Hd. simpl. apply Z.eqb_eq.
Qed.

Lemma put_toggle_working (env : Env) (x : jsstring) (db : Database) :
  working env -> test_digits x = true ->
  put_toggle env x db =
  ({| tasks := map (toggle_row x) (tasks db);
      sqlite_sequence := sqlite_sequence db;
      statements := ToggleTask x :: statements db |},
   if (length (filter (id_matches x) (tasks db)) =? 0)%nat
   then not_found_error else success).
Proof.
  intros Hw Hd. unfold put_toggle, db_run_toggle. rewrite Hd, Hw. simpl.
  now destruct (length (filter (id_matches x) (tasks db)) =? 0)%nat.
Qed.

Lemma delete_task_working (env : Env) (x : jsstring) (db : Database) :
  working env -> test_digits x = true ->
  delete_task env x db =
  ({| tasks := filter (fun r => negb (id_matches x r)) (tasks db);
      sqlite_sequence := sqlite_sequence db;
      statements := DeleteTask x :: statements db |},
   if (length (filter (id_matches x) (tasks db)) =? 0)%nat
   then not_found_error else success).
Proof.
  intros Hw Hd. unfold delete_task, db_run_delete. rewrite Hd, Hw. simpl.
  now destruct (length (filter (id_matches x) (tasks db)) =? 0)%nat.
Qed.

Section NoMatch.

Variable x : jsstring.
Variable rows : list Row.
Hypothesis no_match : forall r, In r rows -> id_matches x r = false.

Lemma filter_no_match : filter (id_matches x) rows = [].
Proof.
  induction rows as [|r l IH]; simpl; [reflexivity|].
  rewrite no_match by now left.
  apply IH. intros r' Hr'. apply no_match. now right.
Qed.

Lemma toggle_no_match : map (toggle_row x) rows = rows.
Proof.
  induction rows as [|r l IH]; simpl; [reflexivity|].
  unfold toggle_row at 1. rewrite no_match by now left.
  f_equal. apply IH. intros r' Hr'. apply no_match. now right.
Qed.

Lemma delete_no_match : filter (fun r => negb (id_matches x r)) rows = rows.
Proof.
  induction rows as [|r l IH]; simpl; [reflexivity|].
  rewrite no_match by now left. simpl.
  f_equal. apply IH. intros r' Hr'. apply no_match. now right.
Qed.

End NoMatch.

Lemma no_match_of_ids (x : jsstring) (rows : list Row) :
  (forall r, In r rows -> id r <> decimal_value x) ->
  forall r, In r rows -> id_matches x r = false.
Proof.
  intros H r Hr. unfold id_matches.
  destruct (Z.eqb_spec (id r) (decimal_value x)) as [E|E].
  - now elim (H r Hr).
  - apply andb_false_r.
Qed.

Lemma deleted_rows_do_not_match (x : jsstring) (rows : list Row) :
  forall r, In r (filter (fun r => negb (id_matches x r)) rows) ->
            id_matches x r = false.
Proof.
  intros r Hr. apply filter_In in Hr. destruct Hr as [_ Hr].
  now destruct (id_matches x r).
Qed.

(** C8: for every well-formed id that matches no task, Toggle and Delete
    answer not-found and leave the rows, and with them the listing, as
    they were.  After a successful Delete(X) no task in the listing has id
    X, and a second Delete(X) answers not-found and changes nothing. *)
Theorem unknown_id_is_not_found
        (env env' : Env) (db : Database) (x : jsstring) :
  working env -> working env' -> decimal_literal x ->
  ((forall r, In r (tasks db) -> id r <> decimal_value x) ->
   snd (put_toggle env x db) = not_found_error
   /\ snd (delete_task env x db) = not_found_error
   /\ tasks (fst (put_toggle env x db)) = tasks db
   /\ tasks (fst (delete_task env x db)) = tasks db
   /\ listing (fst (put_toggle env x db)) = listing db
   /\ listing (fst (delete_task env x db)) = listing db)
  /\ (snd (delete_task env x db) = success ->
      let db' := fst (delete_task env x db) in
      (forall r, In r (listing db') -> id r <> decimal_value x)
      /\ snd (delete_task env' x db') = not_found_error
      /\ listing (fst (delete_task env' x db')) = listing db').
Proof.
  intros Hw Hw' Hx. apply test_digits_spec in Hx. split.
  - intros Hnone. pose proof (no_match_of_ids x (tasks db) Hnone) as Hm.
    rewrite put_toggle_working, delete_task_working by assumption.
    unfold listing. simpl.
    rewrite (filter_no_match _ _ Hm), (toggle_no_match _ _ Hm),
      (delete_no_match _ _ Hm).
    simpl. repeat split.
  - intros _ db'. subst db'.
    rewrite (delete_task_working env x db Hw Hx). cbn [fst snd].
    set (kept := filter (fun r => negb (id_matches x r)) (tasks db)).
    pose proof (deleted_rows_do_not_match x (tasks db)) as Hm.
    fold kept in Hm.
    rewrite delete_task_working by assumption. unfold listing. cbn [fst snd tasks].
    rewrite (filter_no_match _ _ Hm), (delete_no_match _ _ Hm).
    split; [|split; reflexivity].
    intros r Hr E.
    apply (Permutation_in _ (order_by_created_at_desc_perm kept)) in Hr.
    apply Hm in Hr. apply (id_matches_iff x r Hx) in E. congruence.
Qed.

Lemma unknown_id_is_not_found_witness :
  snd (put_toggle (at_time morning) (lit "7") one_task) = not_found_error
  /\ listing (fst (delete_task (at_time morning) (lit "7") one_task))
     = listing one_task
  /\ snd (delete_task (at_time morning) (lit "1")
            (fst (delete_task (at_time morning) (lit "1") one_task)))
     = not_found_error.
Proof.
  assert (Hw : working (at_time morning)) by reflexivity.
  assert (H7 : decimal_literal (lit "7")) by (apply test_digits_spec; reflexivity).
  assert (H1 : decimal_literal (lit "1")) by (apply test_digits_spec; reflexivity).
  destruct (unknown_id_is_not_found (at_time morning) (at_time morning)
              one_task (lit "7") Hw Hw H7) as [Hnone _].
  destruct (unknown_id_is_not_found (at_time morning) (at_time morning)
              one_task (lit "1") Hw Hw H1) as [_ Hdel].
  split; [|split].
  - apply Hnone. intros r [<-|[]]. vm_compute. discriminate.
  - apply Hnone. intros r [<-|[]]. vm_compute. discriminate.
  - apply Hdel. reflexivity.
Defined.

Lemma toggle_row_id (x : jsstring) (r : Row) : id (toggle_row x r) = id r.
Proof. unfold toggle_row. now destruct (id_matches x r). Qed.

Lemma id_matches_toggle_row (x : jsstring) (r : Row) :
  id_matches x (toggle_row x r) = id_matches x r.
Proof. unfold id_matches. now rewrite toggle_row_id. Qed.

Lemma find_toggled (X : Z) (x : jsstring) (rows : list Row) :
  find (fun r => (id r =? X)%Z) (map (toggle_row x) rows)
  = option_map (toggle_row x) (find (fun r => (id r =? X)%Z) rows).
Proof.
  induction rows as [|r rows IH]; simpl; [reflexivity|].
  rewrite toggle_row_id. now destruct (id r =? X)%Z.
Qed.

Lemma sql_not_involutive (v : Z) :
  v = SQL_FALSE \/ v = SQL_TRUE -> sql_not (sql_not v) = v.
Proof. now intros [->| ->]. Qed.

Lemma sql_not_flips (v : Z) : sql_not v <> v.
Proof.
  unfold sql_not, SQL_TRUE, SQL_FALSE.
  destruct (Z.eqb_spec v 0); lia.
Qed.

Lemma toggle_row_twice (x : jsstring) (r : Row) :
  completed r = SQL_FALSE \/ completed r = SQL_TRUE ->
  toggle_row x (toggle_row x r) = r.
Proof.
  intros Hb. unfold toggle_row at 1. rewrite id_matches_toggle_row.
  unfold toggle_row. destruct (id_matches x r); [|reflexivity].
  simpl. rewrite sql_not_involutive by assumption. now destruct r.
Qed.

Lemma toggle_rows_twice (x : jsstring) (rows : list Row) :
  Forall (fun r => completed r = SQL_FALSE \/ completed r = SQL_TRUE) rows ->
  map (toggle_row x) (map (toggle_row x) rows) = rows.
Proof.
  induction 1 as [|r rows Hr _ IH]; simpl; [reflexivity|].
  now rewrite toggle_row_twice, IH.
Qed.

Lemma found_task_matches (x : jsstring) (db : Database) (r : Row) :
  test_digits x = true ->
  find_task (decimal_value x) db = Some r ->
  id_matches x r = true
  /\ (length (filter (id_matches x) (tasks db)) =? 0)%nat = false.
Proof.
  intros Hd Hf. apply find_some in Hf. destruct Hf as [Hin Hid].
  apply Z.eqb_eq in Hid.
  assert (Hm : id_matches x r = true) by now apply id_matches_iff.
  split; [exact Hm|].
  assert (Hin' : In r (filter (id_matches x) (tasks db)))
    by (apply filter_In; now split).
  destruct (filter (id_matches x) (tasks db)); [now elim Hin' | reflexivity].
Qed.

(** One working Toggle of an existing task: it succeeds and negates the
    flag of that task. *)
Lemma toggle_existing (env : Env) (x : jsstring) (db : Database) (r : Row) :
  working env -> test_digits x = true ->
  find_task (decimal_value x) db = Some r ->
  snd (put_toggle env x db) = success
  /\ tasks (fst (put_toggle env x db)) = map (toggle_row x) (tasks db)
  /\ find_task (decimal_value x) (fst (put_toggle env x db)) = Some (negated r).
Proof.
  intros Hw Hd Hf. destruct (found_task_matches x db r Hd Hf) as [Hm Hc].
  rewrite put_toggle_working by assumption. cbn [fst snd]. rewrite Hc.
  split; [reflexivity|]. split; [reflexivity|].
  unfold find_task in *. cbn [tasks]. rewrite find_toggled, Hf. simpl.
  unfold toggle_row. now rewrite Hm.
Qed.

Lemma max_rowid_ge (rows : list Row) (r : Row) :
  In r rows -> (id r <= max_rowid rows)%Z.
Proof.
  induction rows as [|y rows IH]; simpl; [tauto|].
  intros [->|H]; [|apply IH in H]; lia.
Qed.

Lemma find_fresh (X : Z) (rows : list Row) (new : Row) :
  (max_rowid rows < X)%Z -> id new = X ->
  find (fun r => (id r =? X)%Z) (rows ++ [new]) = Some new.
Proof.
  intros Hmax Hid. induction rows as [|y rows IH]; simpl.
  - now rewrite Hid, Z.eqb_refl.
  - simpl in Hmax. destruct (Z.eqb_spec (id y) X); [lia|].
    apply IH. lia.
Qed.

(** What a successful Create leaves behind: the task found under the
    returned id is the new row. *)
Lemma created_task_found
      (env : Env) (s : jsstring) (db0 db : Database) (tj : TaskJson) (X : Z) :
  working env ->
  post_tasks env (JString s) db0 = (db, json (TaskBody tj)) ->
  j_id tj = JNumber X ->
  X = next_rowid db0
  /\ find_task X db
     = Some {| id := X; title := sqlite_text (trim s); completed := SQL_FALSE;
               created_at := CURRENT_TIMESTAMP (sqlite_clock env) |}.
Proof.
  intros Hw Hp Hid.
  destruct (validateTaskTitle (JString s)) eqn:Hv.
  - rewrite post_tasks_accepted in Hp by assumption.
    injection Hp as <- <-. simpl in Hid. injection Hid as <-.
    split; [reflexivity|]. unfold find_task. cbn [tasks].
    apply find_fresh; [unfold next_rowid; lia | reflexivity].
  - rewrite post_tasks_rejected in Hp by assumption. discriminate Hp.
Qed.

(** C9: for every existing task id X, Toggle(X) succeeds and negates that
    task's completed flag, and a second Toggle(X) restores it, leaving the
    rows as they were before the pair; when X is the id a Create has just
    returned, the flag is false after the Create, true after the first
    Toggle and false again after the second. *)
Theorem toggle_negates_and_second_toggle_restores
        (env0 env1 env2 : Env) (db : Database) (x : jsstring) :
  working env0 -> working env1 -> working env2 -> decimal_literal x ->
  let X := decimal_value x in
  let toggled := fst (put_toggle env1 x db) in
  let restored := fst (put_toggle env2 x toggled) in
  (forall r,
      flags_boolean db -> find_task X db = Some r ->
      snd (put_toggle env1 x db) = success
      /\ snd (put_toggle env2 x toggled) = success
      /\ find_task X toggled = Some (negated r)
      /\ completed (negated r) = sql_not (completed r)
      /\ completed (negated r) <> completed r
      /\ find_task X restored = Some r
      /\ tasks restored = tasks db)
  /\ (forall s db0 tj,
         post_tasks env0 (JString s) db0 = (db, json (TaskBody tj)) ->
         j_id tj = JNumber X ->
         completed_of X db = Some SQL_FALSE
         /\ snd (put_toggle env1 x db) = success
         /\ completed_of X toggled = Some SQL_TRUE
         /\ snd (put_toggle env2 x toggled) = success
         /\ completed_of X restored = Some SQL_FALSE).
Proof.
  intros Hw0 Hw1 Hw2 Hx X toggled restored. subst X toggled restored.
  apply test_digits_spec in Hx. split.
  - intros r Hb Hf.
    destruct (toggle_existing env1 x db r Hw1 Hx Hf) as [Hs1 [Ht1 Hf1]].
    destruct (toggle_existing env2 x _ (negated r) Hw2 Hx Hf1)
      as [Hs2 [Ht2 Hf2]].
    assert (Hrows : tasks (fst (put_toggle env2 x (fst (put_toggle env1 x db))))
                    = tasks db).
    { rewrite Ht2, Ht1. now apply toggle_rows_twice. }
    repeat split; try assumption.
    + apply sql_not_flips.
    + unfold find_task. rewrite Hrows. exact Hf.
  - intros s db0 tj Hp Hid.
    destruct (created_task_found env0 s db0 db tj _ Hw0 Hp Hid) as [_ Hf].
    destruct (toggle_existing env1 x db _ Hw1 Hx Hf) as [Hs1 [_ Hf1]].
    destruct (toggle_existing env2 x _ _ Hw2 Hx Hf1) as [Hs2 [_ Hf2]].
    unfold completed_of. rewrite Hf, Hf1, Hf2. repeat split; assumption.
Qed.

Lemma toggle_negates_and_second_toggle_restores_witness :
  let x := lit "1" in
  let toggled := fst (put_toggle (at_time morning) x one_task) in
  let restored := fst (put_toggle (at_time morning) x toggled) in
  completed_of 1 one_task = Some SQL_FALSE
  /\ completed_of 1 toggled = Some SQL_TRUE
  /\ completed_of 1 restored = Some SQL_FALSE
  /\ tasks restored = tasks one_task.
Proof.
  intros x toggled restored.
  assert (Hw : working (at_time morning)) by reflexivity.
  assert (Hx : decimal_literal x) by (apply test_digits_spec; reflexivity).
  assert (Hb : flags_boolean one_task).
  { unfold flags_boolean. simpl. constructor; [now left | constructor]. }
  destruct (toggle_negates_and_second_toggle_restores
              (at_time morning) (at_time morning) (at_time morning)
              one_task x Hw Hw Hw Hx) as [Hexisting Hcreate].
  destruct (Hcreate (lit "Buy milk") empty_database
              {| j_id := JNumber 1;
                 j_title := JString (lit "Buy milk");
                 j_completed := JBool false;
                 j_created_at := JString (toISOString morning) |}
              eq_refl eq_refl) as [H0 [_ [H1 [_ H2]]]].
  destruct (Hexisting
              {| id := 1; title := lit "Buy milk"; completed := SQL_FALSE;
                 created_at := CURRENT_TIMESTAMP morning |}
              Hb eq_refl) as [_ [_ [_ [_ [_ [_ Hrows]]]]]].
  split; [exact H0 | split; [exact H1 | split; [exact H2 | exact Hrows]]].
Defined.

(** ** Invariants of the reachable states *)

(** A property of rows that Toggle keeps holds of every row after Toggle,
    Delete and List; if Create's new row has it too, it holds of every row
    in every reachable state. *)
Section Preservation.

Variable P : Row -> Prop.
Hypothesis P_negated : forall r, P r -> P (negated r).

Lemma toggle_rows_preserve (x : jsstring) (rows : list Row) :
  Forall P rows -> Forall P (map (toggle_row x) rows).
Proof.
  induction 1 as [|r rows Hr _ IH]; simpl; constructor; [|exact IH].
  unfold toggle_row. destruct (id_matches x r); [now apply P_negated | exact Hr].
Qed.

Lemma filter_rows_preserve (f : Row -> bool) (rows : list Row) :
  Forall P rows -> Forall P (filter f rows).
Proof.
  induction 1 as [|r rows Hr _ IH]; simpl; [constructor|].
  destruct (f r); [now constructor | exact IH].
Qed.

Lemma get_tasks_preserves (env : Env) (db : Database) :
  Forall P (tasks db) -> Forall P (tasks (fst (get_tasks env db))).
Proof.
  unfold get_tasks, db_all_tasks. now destruct (sqlite_error env).
Qed.

Lemma put_toggle_preserves (env : Env) (x : jsstring) (db : Database) :
  Forall P (tasks db) -> Forall P (tasks (fst (put_toggle env x db))).
Proof.
  intros H. unfold put_toggle, db_run_toggle.
  destruct (test_digits x); simpl; [|exact H].
  destruct (sqlite_error env); simpl; [exact H|].
  destruct (length (filter (id_matches x) (tasks db)) =? 0)%nat; simpl;
    now apply toggle_rows_preserve.
Qed.

Lemma delete_task_preserves (env : Env) (x : jsstring) (db : Database) :
  Forall P (tasks db) -> Forall P (tasks (fst (delete_task env x db))).
Proof.
  intros H. unfold delete_task, db_run_delete.
  destruct (test_digits x); simpl; [|exact H].
  destruct (sqlite_error env); simpl; [exact H|].
  destruct (length (filter (id_matches x) (tasks db)) =? 0)%nat; simpl;
    now apply filter_rows_preserve.
Qed.

Hypothesis P_created :
  forall rowid s ts,
    validateTaskTitle (JString s) = true ->
    P {| id := rowid; title := sqlite_text (trim s); completed := SQL_FALSE;
         created_at := ts |}.

Lemma post_tasks_preserves (env : Env) (v : JsValue) (db : Database) :
  Forall P (tasks db) -> Forall P (tasks (fst (post_tasks env v db))).
Proof.
  intros H. unfold post_tasks.
  destruct (validateTaskTitle v) eqn:Hv; simpl; [|exact H].
  destruct v as [| |b|n|s| |]; try exact H.
  unfold db_run_insert. destruct (sqlite_error env); simpl; [exact H|].
  apply Forall_app. split; [exact H|].
  constructor; [now apply P_created | constructor].
Qed.

Lemma handle_preserves (env : Env) (rq : Request) (db : Database) :
  Forall P (tasks db) -> Forall P (tasks (fst (handle env rq db))).
Proof.
  destruct rq; simpl;
    [apply get_tasks_preserves | apply post_tasks_preserves
     | apply put_toggle_preserves | apply delete_task_preserves].
Qed.

Lemma reachable_invariant (db : Database) :
  reachable db -> Forall P (tasks db).
Proof.
  induction 1 as [|env rq db _ IH]; [constructor|].
  now apply handle_preserves.
Qed.

End Preservation.

(** The stored flags are SQLite booleans. *)
Lemma reachable_flags_boolean (db : Database) :
  reachable db -> flags_boolean db.
Proof.
  apply reachable_invariant.
  - intros r [H|H]; simpl; rewrite H; [now right | now left].
  - intros. now left.
Qed.

(** What does hold of stored titles: none is longer than 200 code
    units. *)
Lemma reachable_titles_at_most_200 (db : Database) :
  reachable db -> titles_at_most_200 db.
Proof.
  apply reachable_invariant.
  - intros r H. exact H.
  - intros rowid s ts Hv. simpl. rewrite sqlite_text_length.
    apply validateTaskTitle_string in Hv. pose proof (trim_length s). lia.
Qed.

(** Toggle and Delete keep the full title invariant; only Create can
    break it. *)
Lemma toggle_delete_keep_title_invariant
      (env : Env) (x : jsstring) (db : Database) :
  title_invariant db ->
  title_invariant (fst (put_toggle env x db))
  /\ title_invariant (fst (delete_task env x db)).
Proof.
  intros H. split.
  - apply put_toggle_preserves; [|exact H]. intros r Hr. exact Hr.
  - apply delete_task_preserves. exact H.
Qed.

(** ** List *)

Lemma text_compare_lt_trans (a b c : jsstring) :
  text_compare a b = Lt -> text_compare b c = Lt -> text_compare a c = Lt.
Proof.
  intros Hab Hbc.
  assert (Hba : text_compare b a <> Lt)
    by (rewrite (text_compare_antisym a b), Hab; discriminate).
  assert (Hcb : text_compare c b <> Lt)
    by (rewrite (text_compare_antisym b c), Hbc; discriminate).
  pose proof (text_compare_ge_trans c b a Hcb Hba) as Hca.
  rewrite (text_compare_antisym a c) in Hca.
  destruct (text_compare a c) eqn:E; try reflexivity.
  - apply text_compare_eq in E. subst c. congruence.
  - now elim Hca.
Qed.

(** C4 as stated fails: three tasks created within one second share their
    [created_at], the SELECT has no second sort key, and the listing
    returns them oldest first, A then B then C, which is not the order
    with ties broken by id descending. *)
Lemma same_second_creates_are_listed_oldest_first :
  map title (listing (created_in_turn morning ["A"; "B"; "C"]%string))
  = [lit "A"; lit "B"; lit "C"]
  /\ map id (listing (created_in_turn morning ["A"; "B"; "C"]%string))
     = [1; 2; 3]%Z
  /\ ~ StronglySorted newest_first_then_id
         (listing (created_in_turn morning ["A"; "B"; "C"]%string)).
Proof.
  split; [reflexivity|]. split; [reflexivity|].
  intros H. vm_compute in H.
  inversion H as [|r l _ Hf]. subst.
  inversion Hf as [|r l [Hgt|[_ Hlt]] _]; discriminate.
Qed.

(** C4, amended: List() always returns every task of the table, ordered by
    created_at descending, with no further rule for equal timestamps;
    hence creating tasks A then B then C in an empty table at strictly
    increasing created_at values yields the order C, B, A. *)
Theorem listing_is_newest_first (envL : Env) (db : Database) :
  (working envL ->
   snd (get_tasks envL db) = json (TasksBody (map row_json (listing db))))
  /\ StronglySorted newest_first (listing db)
  /\ Permutation (listing db) (tasks db)
  /\ (forall envA envB envC a b c,
        working envA -> working envB -> working envC ->
        validateTaskTitle (JString a) = true ->
        validateTaskTitle (JString b) = true ->
        validateTaskTitle (JString c) = true ->
        text_compare (CURRENT_TIMESTAMP (sqlite_clock envA))
                     (CURRENT_TIMESTAMP (sqlite_clock envB)) = Lt ->
        text_compare (CURRENT_TIMESTAMP (sqlite_clock envB))
                     (CURRENT_TIMESTAMP (sqlite_clock envC)) = Lt ->
        tasks db = [] ->
        let dbA := fst (post_tasks envA (JString a) db) in
        let dbB := fst (post_tasks envB (JString b) dbA) in
        let dbC := fst (post_tasks envC (JString c) dbB) in
        map title (tasks dbC)
        = [sqlite_text (trim a); sqlite_text (trim b); sqlite_text (trim c)]
        /\ map title (listing dbC)
           = [sqlite_text (trim c); sqlite_text (trim b); sqlite_text (trim a)]
        /\ listing dbC = rev (tasks dbC)).
Proof.
  split; [|split; [|split]].
  - intros HwL. unfold get_tasks, db_all_tasks. now rewrite HwL.
  - apply order_by_created_at_desc_sorted.
  - apply order_by_created_at_desc_perm.
  - intros envA envB envC a b c HwA HwB HwC Ha Hb Hc Hab Hbc Hempty
           dbA dbB dbC.
    subst dbA dbB dbC.
    pose proof (text_compare_lt_trans _ _ _ Hab Hbc) as Hac.
    rewrite !post_tasks_accepted by assumption.
    unfold listing. cbn [fst tasks]. rewrite Hempty. cbn [app].
    split; [reflexivity|].
    set (tA := CURRENT_TIMESTAMP (sqlite_clock envA)) in *.
    set (tB := CURRENT_TIMESTAMP (sqlite_clock envB)) in *.
    set (tC := CURRENT_TIMESTAMP (sqlite_clock envC)) in *.
    clearbody tA tB tC.
    cbn [order_by_created_at_desc fold_right insert_desc created_at].
    unfold text_ltb. rewrite Hbc.
    cbn [insert_desc created_at]. unfold text_ltb. rewrite Hac.
    cbn [insert_desc created_at]. unfold text_ltb. rewrite Hab.
    split; reflexivity.
Qed.

Lemma listing_is_newest_first_witness :
  let dbA := fst (post_tasks (at_time morning) (JString (lit "A"))
                             empty_database) in
  let dbB := fst (post_tasks (at_time (seconds_later 1 morning))
                             (JString (lit "B")) dbA) in
  let dbC := fst (post_tasks (at_time (seconds_later 2 morning))
                             (JString (lit "C")) dbB) in
  snd (get_tasks (at_time morning) empty_database) = json (TasksBody [])
  /\ map title (listing dbC) = [lit "C"; lit "B"; lit "A"].
Proof.
  intros dbA dbB dbC.
  destruct (listing_is_newest_first (at_time morning) empty_database)
    as [Hget [_ [_ H]]].
  split; [exact (Hget eq_refl)|].
  destruct (H (at_time morning) (at_time (seconds_later 1 morning))
              (at_time (seconds_later 2 morning))
              (lit "A") (lit "B") (lit "C")
              eq_refl eq_refl eq_refl eq_refl eq_refl eq_refl eq_refl
              eq_refl eq_refl) as [_ [H' _]].
  exact H'.
Defined.

(** ** The task Create returns *)

Lemma isDigit_digit (n : N) : isDigit (digit n) = true.
Proof.
  unfold isDigit, digit.
  assert (H : (n mod 10 < 10)%N) by (apply N.mod_upper_bound; discriminate).
  set (d := (n mod 10)%N) in *. clearbody d.
  rewrite andb_true_iff, !N.leb_le. lia.
Qed.

Lemma toISOString_shape (t : UtcTime) : iso8601_utc (toISOString t) = true.
Proof.
  unfold iso8601_utc, toISOString, pad4, pad3, pad2.
  cbn -[digit isDigit N.div]. now rewrite !isDigit_digit.
Qed.

Lemma CURRENT_TIMESTAMP_shape (t : UtcTime) :
  sqlite_datetime (CURRENT_TIMESTAMP t) = true.
Proof.
  unfold sqlite_datetime, CURRENT_TIMESTAMP, pad4, pad3, pad2.
  cbn -[digit isDigit N.div]. now rewrite !isDigit_digit.
Qed.

Lemma CURRENT_TIMESTAMP_not_iso (t : UtcTime) :
  iso8601_utc (CURRENT_TIMESTAMP t) = false.
Proof.
  unfold iso8601_utc, CURRENT_TIMESTAMP, pad4, pad3, pad2.
  cbn -[digit isDigit N.div]. now rewrite !isDigit_digit.
Qed.

Lemma toISOString_is_not_CURRENT_TIMESTAMP (t t' : UtcTime) :
  toISOString t <> CURRENT_TIMESTAMP t'.
Proof.
  intros H. apply (f_equal (@length _)) in H. discriminate H.
Qed.

(** C5 as stated fails: after [Create("Buy milk")] on the empty database,
    List() reports one row with the returned id, but its created_at is
    SQLite's [2024-05-17 09:30:12] where Create returned
    [2024-05-17T09:30:12.345Z] (read from the JavaScript clock, not from
    the row), and its completed is the number 0 where Create returned the
    boolean [false]. *)
Lemma created_task_is_not_the_listed_row :
  exists returned listed,
    snd (post_tasks (at_time morning) (JString (lit "Buy milk"))
                    empty_database) = json (TaskBody returned)
    /\ snd (get_tasks (at_time morning) one_task) = json (TasksBody [listed])
    /\ j_id listed = j_id returned
    /\ j_title listed = j_title returned
    /\ j_created_at returned = JString (lit "2024-05-17T09:30:12.345Z")
    /\ j_created_at listed = JString (lit "2024-05-17 09:30:12")
    /\ j_created_at listed <> j_created_at returned
    /\ j_completed returned = JBool false
    /\ j_completed listed = JNumber 0
    /\ returned <> listed.
Proof.
  eexists. eexists.
  split; [reflexivity|]. split; [reflexivity|].
  repeat (split; [reflexivity|]).
  split; [discriminate|].
  repeat (split; [reflexivity|]).
  discriminate.
Qed.

(** C5, amended: on success, Create returns a task whose id is that of
    the one stored row with that id, which a subsequent List() reports.
    The returned title is the trimmed title of the request; it is the
    row's title whenever the title is well-formed UTF-16, and otherwise
    the row holds it with each unpaired surrogate replaced by U+FFFD.  The
    returned completed is the boolean false, where the row holds SQLite's
    FALSE, the integer 0; the returned created_at is an ISO-8601 string
    taken from the JavaScript clock when the response is built, not from
    the row, whose created_at is SQLite's [YYYY-MM-DD HH:MM:SS] text and
    is what List() reports. *)
Theorem create_returns_task_built_from_request
        (env env' : Env) (db : Database) (s : jsstring) :
  working env -> working env' ->
  validateTaskTitle (JString s) = true ->
  let db' := fst (post_tasks env (JString s) db) in
  exists row,
    snd (post_tasks env (JString s) db)
    = json (TaskBody {| j_id := JNumber (id row);
                        j_title := JString (trim s);
                        j_completed := JBool false;
                        j_created_at := JString (toISOString (js_clock env)) |})
    /\ snd (get_tasks env' db') = json (TasksBody (map row_json (listing db')))
    /\ In row (listing db')
    /\ (forall r, In r (listing db') -> id r = id row -> r = row)
    /\ title row = sqlite_text (trim s)
    /\ (well_formed s = true -> title row = trim s)
    /\ completed row = SQL_FALSE
    /\ created_at row = CURRENT_TIMESTAMP (sqlite_clock env)
    /\ iso8601_utc (toISOString (js_clock env)) = true
    /\ sqlite_datetime (created_at row) = true
    /\ iso8601_utc (created_at row) = false
    /\ toISOString (js_clock env) <> created_at row.
Proof.
  intros Hw Hw' Hv db'. subst db'.
  rewrite post_tasks_accepted by assumption. cbn [fst snd].
  exists {| id := next_rowid db; title := sqlite_text (trim s);
            completed := SQL_FALSE;
            created_at := CURRENT_TIMESTAMP (sqlite_clock env) |}.
  split; [reflexivity|]. cbn [id title completed created_at].
  split; [unfold get_tasks, db_all_tasks; now rewrite Hw'|].
  split; [apply in_listing; cbn [tasks]; apply in_or_app; right; now left|].
  split.
  { intros r Hr Hid. apply in_listing in Hr. cbn [tasks] in Hr.
    apply in_app_or in Hr. destruct Hr as [Hr|[<-|[]]]; [|reflexivity].
    apply max_rowid_ge in Hr. unfold next_rowid in Hid. lia. }
  split; [reflexivity|].
  split; [intros Hwf; apply sqlite_text_well_formed;
          now rewrite trim_well_formed|].
  repeat (split; [reflexivity|]).
  split; [apply toISOString_shape|].
  split; [apply CURRENT_TIMESTAMP_shape|].
  split; [apply CURRENT_TIMESTAMP_not_iso|].
  apply toISOString_is_not_CURRENT_TIMESTAMP.
Qed.

Lemma create_returns_task_built_from_request_witness :
  exists row,
    snd (post_tasks (at_time morning) (JString (lit "Buy milk"))
                    empty_database)
    = json (TaskBody {| j_id := JNumber (id row);
                        j_title := JString (lit "Buy milk");
                        j_completed := JBool false;
                        j_created_at := JString (toISOString morning) |})
    /\ In row (listing one_task)
    /\ title row = lit "Buy milk"
    /\ created_at row = CURRENT_TIMESTAMP morning.
Proof.
  destruct (create_returns_task_built_from_request
              (at_time morning) (at_time morning) empty_database
              (lit "Buy milk") eq_refl eq_refl eq_refl)
    as [row [Hresp [_ [Hin [_ [_ [Hwf [_ [Hts _]]]]]]]]].
  exists row. split; [exact Hresp|]. split; [exact Hin|].
  split; [exact (Hwf eq_refl) | exact Hts].
Defined.

(** ** The client's escaping *)

Lemma replace_all_in (c d : code_unit) (rep s : jsstring) :
  In d (Client.replace_all c rep s) -> In d rep \/ (In d s /\ d <> c).
Proof.
  unfold Client.replace_all. intros H.
  apply in_flat_map in H. destruct H as [x [Hx Hd]].
  destruct (N.eqb_spec x c) as [->|Hne].
  - now left.
  - destruct Hd as [<-|[]]. now right.
Qed.

Lemma escapeHtml_in (d : code_unit) (s : jsstring) :
  In d (Client.escapeHtml s) -> Client.is_markup d = false.
Proof.
  unfold Client.escapeHtml. intros H.
  apply replace_all_in in H. destruct H as [H|[H Hsq]].
  { simpl in H. intuition (subst; reflexivity). }
  apply replace_all_in in H. destruct H as [H|[H Hdq]].
  { simpl in H. intuition (subst; reflexivity). }
  apply replace_all_in in H. destruct H as [H|[H Hgt]].
  { simpl in H. intuition (subst; reflexivity). }
  apply replace_all_in in H. destruct H as [H|[H Hlt]].
  { simpl in H. intuition (subst; reflexivity). }
  unfold Client.is_markup.
  apply N.eqb_neq in Hsq, Hdq, Hgt, Hlt. now rewrite Hsq, Hdq, Hgt, Hlt.
Qed.

Lemma existsb_false_filter {A : Type} (f : A -> bool) (l : list A) :
  existsb f l = false -> filter f l = [].
Proof.
  induction l as [|x l IH]; simpl; [reflexivity|].
  destruct (f x); simpl; [discriminate | exact IH].
Qed.

Lemma markup_count_app (a b : jsstring) :
  Client.markup_count (a ++ b) = Client.markup_count a + Client.markup_count b.
Proof. unfold Client.markup_count. now rewrite filter_app, length_app. Qed.

(** C10: for every string [s], [escapeHtml s] has no occurrence of [<],
    [>], the double quote or the single quote; and [renderTasks] puts a
    task's title into the page only as [escapeHtml (title)], between two
    pieces of template that do not depend on the title, so that whatever
    the title is it adds none of those characters to the markup. *)
Theorem rendered_titles_are_escaped
        (formatDate : jsstring -> jsstring)
        (t : Client.Task) (tasks : list Client.Task) (s : jsstring) :
  existsb Client.is_markup (Client.escapeHtml s) = false
  /\ Client.markup_count (Client.escapeHtml s) = 0
  /\ Client.render_task formatDate t
     = Client.item_open t ++ Client.escapeHtml (Client.title t)
       ++ Client.item_close formatDate t
  /\ Client.item_open (Client.with_title s t) = Client.item_open t
  /\ Client.item_close formatDate (Client.with_title s t)
     = Client.item_close formatDate t
  /\ Client.renderTasks formatDate (t :: tasks)
     = concat (map (fun u => Client.item_open u
                             ++ Client.escapeHtml (Client.title u)
                             ++ Client.item_close formatDate u)
                   (t :: tasks))
  /\ Client.markup_count (Client.render_task formatDate (Client.with_title s t))
     = Client.markup_count (Client.item_open t)
       + Client.markup_count (Client.item_close formatDate t).
Proof.
  assert (Hclean : forall u, existsb Client.is_markup (Client.escapeHtml u) = false).
  { intros u. destruct (existsb Client.is_markup (Client.escapeHtml u)) eqn:E;
      [|reflexivity].
    apply existsb_exists in E. destruct E as [d [Hin Hm]].
    apply escapeHtml_in in Hin. congruence. }
  assert (Hzero : forall u, Client.markup_count (Client.escapeHtml u) = 0).
  { intros u. unfold Client.markup_count.
    now rewrite (existsb_false_filter _ _ (Hclean u)). }
  split; [apply Hclean|]. split; [apply Hzero|].
  split; [reflexivity|]. split; [reflexivity|]. split; [reflexivity|].
  split; [reflexivity|].
  unfold Client.render_task. rewrite !markup_count_app.
  change (Client.title (Client.with_title s t)) with s. rewrite Hzero.
  change (Client.item_open (Client.with_title s t)) with (Client.item_open t).
  change (Client.item_close formatDate (Client.with_title s t))
    with (Client.item_close formatDate t).
  lia.
Qed.

(** The four characters, one by one, on a sample. *)
Example escapeHtml_sample :
  Client.escapeHtml (lit "<b title='x'>&</b>")
  = lit "&lt;b title=&#039;x&#039;&gt;&amp;&lt;/b&gt;".
Proof. reflexivity. Qed.

(** * Further properties of the server *)

(** ** Rejections and failures *)

(** X1: a title that is not a string (absent, null, a boolean, a number,
    an object or an array) is refused with the validation error before
    anything is sent to storage. *)
Theorem create_rejects_non_strings (env : Env) (db : Database) (v : JsValue) :
  is_string_type (typeof v) = false ->
  post_tasks env v db = (db, validation_error).
Proof.
  intros Ht. apply post_tasks_rejected.
  unfold validateTaskTitle. rewrite Ht. now rewrite orb_true_r.
Qed.

Lemma create_rejects_non_strings_witness :
  post_tasks disk_failure JUndefined one_task = (one_task, validation_error)
  /\ post_tasks (at_time morning) (JNumber 42) one_task
     = (one_task, validation_error)
  /\ post_tasks (at_time morning) JArray one_task
     = (one_task, validation_error).
Proof.
  split; [|split].
  - apply (create_rejects_non_strings disk_failure one_task JUndefined).
    reflexivity.
  - apply (create_rejects_non_strings (at_time morning) one_task (JNumber 42)).
    reflexivity.
  - apply (create_rejects_non_strings (at_time morning) one_task JArray).
    reflexivity.
Defined.

(** X2: when the driver reports an error, every operation on well-formed
    input answers 500 "Database error" and leaves the rows and the id
    sequence as they were; the statement did reach the driver. *)
Theorem storage_failure_changes_nothing
        (env : Env) (db : Database) (e s x : jsstring) :
  sqlite_error env = Some e ->
  validateTaskTitle (JString s) = true ->
  test_digits x = true ->
  Forall (fun rq =>
            snd (handle env rq db) = storage_error
            /\ tasks (fst (handle env rq db)) = tasks db
            /\ sqlite_sequence (fst (handle env rq db)) = sqlite_sequence db
            /\ length (statements (fst (handle env rq db)))
               = S (length (statements db)))
         [OpList; OpCreate (JString s); OpToggle x; OpDelete x].
Proof.
  intros He Hv Hx.
  repeat constructor; simpl;
    unfold get_tasks, db_all_tasks, post_tasks, db_run_insert,
      put_toggle, db_run_toggle, delete_task, db_run_delete;
    rewrite ?Hv, ?Hx, He; reflexivity.
Qed.

Lemma storage_failure_changes_nothing_witness :
  snd (handle disk_failure (OpDelete (lit "1")) one_task) = storage_error
  /\ tasks (fst (handle disk_failure (OpDelete (lit "1")) one_task))
     = tasks one_task
  /\ snd (handle disk_failure (OpCreate (JString (lit "Tea"))) one_task)
     = storage_error.
Proof.
  pose proof (storage_failure_changes_nothing disk_failure one_task
                (lit "SQLITE_IOERR: disk I/O error") (lit "Tea") (lit "1")
                eq_refl eq_refl eq_refl) as H.
  pose proof (Forall_inv (Forall_inv_tail H)) as Hcreate.
  pose proof (Forall_inv (Forall_inv_tail (Forall_inv_tail (Forall_inv_tail H))))
    as Hdelete.
  split; [exact (proj1 Hdelete)|].
  split; [exact (proj1 (proj2 Hdelete)) | exact (proj1 Hcreate)].
Defined.

Lemma filter_length_zero {A : Type} (f : A -> bool) (l : list A) :
  (length (filter f l) =? 0)%nat = true -> forall a, In a l -> f a = false.
Proof.
  intros H a Ha. destruct (f a) eqn:E; [|reflexivity].
  assert (Hin : In a (filter f l)) by (apply filter_In; now split).
  destruct (filter f l); [now elim Hin | discriminate H].
Qed.

(** X3: a request that is not answered with 200 changes neither the rows
    nor the id sequence, whichever operation it was and whatever the
    driver did; and List never changes them. *)
Theorem failed_requests_change_nothing
        (env : Env) (rq : Request) (db : Database) :
  status (snd (handle env rq db)) <> 200%Z \/ rq = OpList ->
  tasks (fst (handle env rq db)) = tasks db
  /\ sqlite_sequence (fst (handle env rq db)) = sqlite_sequence db.
Proof.
  intros H. destruct rq as [|v|x|x]; simpl in *.
  - unfold get_tasks, db_all_tasks. now destruct (sqlite_error env).
  - destruct H as [H|H]; [|discriminate H]. revert H. unfold post_tasks.
    destruct (validateTaskTitle v); simpl; [|now split].
    destruct v as [| |b|n|s| |]; simpl; try (now split).
    unfold db_run_insert. destruct (sqlite_error env); simpl; [now split|].
    intros H. now elim H.
  - destruct H as [H|H]; [|discriminate H]. revert H. unfold put_toggle.
    destruct (test_digits x); simpl; [|now split].
    unfold db_run_toggle. destruct (sqlite_error env); simpl; [now split|].
    destruct (length (filter (id_matches x) (tasks db)) =? 0)%nat eqn:E;
      simpl; [|intros H; now elim H].
    intros _. split; [|reflexivity].
    apply toggle_no_match. now apply filter_length_zero.
  - destruct H as [H|H]; [|discriminate H]. revert H. unfold delete_task.
    destruct (test_digits x); simpl; [|now split].
    unfold db_run_delete. destruct (sqlite_error env); simpl; [now split|].
    destruct (length (filter (id_matches x) (tasks db)) =? 0)%nat eqn:E;
      simpl; [|intros H; now elim H].
    intros _. split; [|reflexivity].
    apply delete_no_match. now apply filter_length_zero.
Qed.

Lemma failed_requests_change_nothing_witness :
  tasks (fst (handle (at_time morning) (OpToggle (lit "7")) one_task))
  = tasks one_task
  /\ tasks (fst (handle disk_failure OpList one_task)) = tasks one_task.
Proof.
  split.
  - apply (failed_requests_change_nothing (at_time morning)
             (OpToggle (lit "7")) one_task).
    left. vm_compute. discriminate.
  - apply (failed_requests_change_nothing disk_failure OpList one_task).
    now right.
Defined.

(** ** Identifiers *)

Lemma sorted_snoc (l : list Z) (x : Z) :
  StronglySorted Z.lt l -> Forall (fun y => (y < x)%Z) l ->
  StronglySorted Z.lt (l ++ [x]).
Proof.
  induction 1 as [|y l Hs IH Hy]; simpl; intros Hx.
  - repeat constructor.
  - inversion Hx as [|? ? Hyx Hlx]; subst. constructor; [now apply IH|].
    apply Forall_app. split; [exact Hy | now constructor].
Qed.

Lemma sorted_filter_ids (f : Row -> bool) (rows : list Row) :
  StronglySorted Z.lt (map id rows) ->
  StronglySorted Z.lt (map id (filter f rows)).
Proof.
  induction rows as [|r rows IH]; simpl; [constructor|].
  intros H. inversion H as [|? ? Hs Hr]; subst.
  destruct (f r); simpl; [|now apply IH].
  constructor; [now apply IH|].
  rewrite Forall_forall in Hr |- *. intros y Hy. apply Hr.
  apply in_map_iff in Hy. destruct Hy as [r' [<- Hr']].
  apply filter_In in Hr'. apply in_map. tauto.
Qed.

Lemma toggled_ids (x : jsstring) (rows : list Row) :
  map id (map (toggle_row x) rows) = map id rows.
Proof.
  rewrite map_map. apply map_ext. intros r. apply toggle_row_id.
Qed.

Lemma sorted_ids_distinct (rows : list Row) (a b : Row) :
  StronglySorted Z.lt (map id rows) ->
  In a rows -> In b rows -> id a = id b -> a = b.
Proof.
  induction rows as [|r rows IH]; simpl; [tauto|].
  intros H Ha Hb E. inversion H as [|? ? Hs Hr]; subst.
  rewrite Forall_forall in Hr.
  destruct Ha as [->|Ha], Hb as [->|Hb]; auto.
  - specialize (Hr (id b) (in_map id _ _ Hb)). lia.
  - specialize (Hr (id a) (in_map id _ _ Ha)). lia.
Qed.

Lemma handle_ids_increasing (env : Env) (rq : Request) (db : Database) :
  ids_increasing db -> ids_increasing (fst (handle env rq db)).
Proof.
  unfold ids_increasing. intros [Hs Hb].
  destruct rq as [|v|x|x]; simpl.
  - unfold get_tasks, db_all_tasks. now destruct (sqlite_error env).
  - unfold post_tasks. destruct (validateTaskTitle v); simpl; [|now split].
    destruct v as [| |b|n|s| |]; simpl; try (now split).
    unfold db_run_insert. destruct (sqlite_error env); simpl; [now split|].
    assert (Hlt : Forall (fun r => (id r < next_rowid db)%Z) (tasks db)).
    { rewrite Forall_forall. intros r Hr. apply max_rowid_ge in Hr.
      unfold next_rowid. lia. }
    split.
    + rewrite map_app. simpl. apply sorted_snoc; [exact Hs|].
      rewrite Forall_forall in Hlt |- *. intros y Hy.
      apply in_map_iff in Hy. destruct Hy as [r [<- Hr]]. now apply Hlt.
    + apply Forall_app. split.
      * rewrite Forall_forall in Hb, Hlt |- *. intros r Hr.
        specialize (Hb r Hr). specialize (Hlt r Hr). lia.
      * constructor; [|constructor]. simpl. unfold next_rowid.
        pose proof (Z.le_max_l (sqlite_sequence db) (max_rowid (tasks db))).
        assert (0 <= max_rowid (tasks db))%Z.
        { clear. induction (tasks db); simpl; lia. }
        lia.
  - unfold put_toggle. destruct (test_digits x); simpl; [|now split].
    unfold db_run_toggle. destruct (sqlite_error env); simpl; [now split|].
    destruct (length (filter (id_matches x) (tasks db)) =? 0)%nat; simpl;
      (split; [now rewrite toggled_ids|]);
      rewrite Forall_forall in Hb |- *; intros r Hr;
      apply in_map_iff in Hr; destruct Hr as [r0 [<- Hr0]];
      rewrite toggle_row_id; now apply Hb.
  - unfold delete_task. destruct (test_digits x); simpl; [|now split].
    unfold db_run_delete. destruct (sqlite_error env); simpl; [now split|].
    destruct (length (filter (id_matches x) (tasks db)) =? 0)%nat; simpl;
      (split; [now apply sorted_filter_ids|]);
      rewrite Forall_forall in Hb |- *; intros r Hr;
      apply filter_In in Hr; now apply Hb.
Qed.

Lemma reachable_ids_increasing (db : Database) :
  reachable db -> ids_increasing db.
Proof.
  induction 1 as [|env rq db _ IH].
  - split; constructor.
  - now apply handle_ids_increasing.
Qed.

(** X4: in every state the server can reach, the ids grow strictly along
    the table, lie between 1 and the recorded sequence value, and no two
    tasks share an id. *)
Theorem ids_are_unique_and_increasing (db : Database) :
  reachable db ->
  StronglySorted Z.lt (map id (tasks db))
  /\ Forall (fun r => (1 <= id r <= sqlite_sequence db)%Z) (tasks db)
  /\ (forall a b, In a (tasks db) -> In b (tasks db) -> id a = id b -> a = b).
Proof.
  intros Hr. destruct (reachable_ids_increasing db Hr) as [Hs Hb].
  split; [exact Hs|]. split; [exact Hb|].
  intros a b. now apply sorted_ids_distinct.
Qed.

Lemma ids_are_unique_and_increasing_witness :
  StronglySorted Z.lt
    (map id (tasks (created_in_turn morning ["A"; "B"; "C"]%string))).
Proof.
  apply (ids_are_unique_and_increasing
           (created_in_turn morning ["A"; "B"; "C"]%string)).
  apply (reachable_step (at_time morning) (OpCreate (JString (lit "C")))).
  apply (reachable_step (at_time morning) (OpCreate (JString (lit "B")))).
  apply (reachable_step (at_time morning) (OpCreate (JString (lit "A")))).
  apply reachable_empty.
Defined.

Lemma handle_sequence_grows (env : Env) (rq : Request) (db : Database) :
  (sqlite_sequence db <= sqlite_sequence (fst (handle env rq db)))%Z.
Proof.
  destruct rq as [|v|x|x]; simpl.
  - unfold get_tasks, db_all_tasks. destruct (sqlite_error env); simpl; lia.
  - unfold post_tasks. destruct (validateTaskTitle v); simpl; [|lia].
    destruct v as [| |b|n|s| |]; simpl; try lia.
    unfold db_run_insert. destruct (sqlite_error env); simpl; [lia|].
    unfold next_rowid. lia.
  - unfold put_toggle. destruct (test_digits x); simpl; [|lia].
    unfold db_run_toggle. destruct (sqlite_error env); simpl; [lia|].
    destruct (length (filter (id_matches x) (tasks db)) =? 0)%nat; simpl; lia.
  - unfold delete_task. destruct (test_digits x); simpl; [|lia].
    unfold db_run_delete. destruct (sqlite_error env); simpl; [lia|].
    destruct (length (filter (id_matches x) (tasks db)) =? 0)%nat; simpl; lia.
Qed.

Lemma steps_sequence_grows (db db' : Database) :
  steps db db' -> (sqlite_sequence db <= sqlite_sequence db')%Z.
Proof.
  induction 1 as [db|env rq db db' _ IH]; [lia|].
  pose proof (handle_sequence_grows env rq db). lia.
Qed.

Lemma steps_ids_increasing (db db' : Database) :
  steps db db' -> ids_increasing db -> ids_increasing db'.
Proof.
  induction 1 as [db|env rq db db' _ IH]; [tauto|].
  intros H. apply IH. now apply handle_ids_increasing.
Qed.

Lemma steps_reachable (db db' : Database) :
  steps db db' -> reachable db -> reachable db'.
Proof.
  induction 1 as [db|env rq db db' _ IH]; [tauto|].
  intros H. apply IH. now constructor.
Qed.

(** X5: ids are never handed out twice.  Whatever requests come after a
    task existed, deletions included, the id a later successful Create
    returns is larger than that task's id, and larger than every id in the
    table at that moment. *)
Theorem ids_are_never_reused
        (db db' : Database) (r : Row) (env : Env) (s : jsstring) :
  reachable db -> In r (tasks db) -> steps db db' ->
  working env -> validateTaskTitle (JString s) = true ->
  exists tj n,
    snd (post_tasks env (JString s) db') = json (TaskBody tj)
    /\ j_id tj = JNumber n
    /\ (id r < n)%Z
    /\ Forall (fun r' => (id r' < n)%Z) (tasks db').
Proof.
  intros Hreach Hin Hsteps Hw Hv.
  rewrite post_tasks_accepted by assumption. cbn [snd].
  eexists. exists (next_rowid db'). split; [reflexivity|].
  split; [reflexivity|]. split.
  - destruct (reachable_ids_increasing db Hreach) as [_ Hb].
    rewrite Forall_forall in Hb. specialize (Hb r Hin).
    pose proof (steps_sequence_grows db db' Hsteps).
    unfold next_rowid. lia.
  - rewrite Forall_forall. intros r' Hr'. apply max_rowid_ge in Hr'.
    unfold next_rowid. lia.
Qed.

Lemma ids_are_never_reused_witness :
  exists tj n,
    snd (post_tasks (at_time morning) (JString (lit "Tea"))
           (fst (handle (at_time morning) (OpDelete (lit "1")) one_task)))
    = json (TaskBody tj)
    /\ j_id tj = JNumber n
    /\ (1 < n)%Z.
Proof.
  destruct (ids_are_never_reused one_task
              (fst (handle (at_time morning) (OpDelete (lit "1")) one_task))
              {| id := 1; title := lit "Buy milk"; completed := SQL_FALSE;
                 created_at := CURRENT_TIMESTAMP morning |}
              (at_time morning) (lit "Tea"))
    as [tj [n [Hresp [Hid [Hlt _]]]]].
  - apply (reachable_step (at_time morning) (OpCreate (JString (lit "Buy milk")))).
    apply reachable_empty.
  - now left.
  - apply (steps_cons (at_time morning) (OpDelete (lit "1"))). apply steps_refl.
  - reflexivity.
  - reflexivity.
  - exists tj, n. split; [exact Hresp|]. split; [exact Hid | exact Hlt].
Defined.

(** ** What a request can do to the table *)

Lemma handle_cases (env : Env) (rq : Request) (db : Database) :
  (tasks (fst (handle env rq db)) = tasks db
   /\ sqlite_sequence (fst (handle env rq db)) = sqlite_sequence db)
  \/ (exists new,
         tasks (fst (handle env rq db)) = tasks db ++ [new]
         /\ id new = next_rowid db
         /\ sqlite_sequence (fst (handle env rq db)) = next_rowid db)
  \/ (exists x,
         tasks (fst (handle env rq db)) = map (toggle_row x) (tasks db)
         /\ sqlite_sequence (fst (handle env rq db)) = sqlite_sequence db)
  \/ (exists x,
         tasks (fst (handle env rq db))
         = filter (fun r => negb (id_matches x r)) (tasks db)
         /\ sqlite_sequence (fst (handle env rq db)) = sqlite_sequence db).
Proof.
  destruct rq as [|v|x|x]; simpl.
  - left. unfold get_tasks, db_all_tasks. now destruct (sqlite_error env).
  - unfold post_tasks. destruct (validateTaskTitle v); simpl; [|now left].
    destruct v as [| |b|n|s| |]; simpl; try (now left).
    unfold db_run_insert. destruct (sqlite_error env); simpl; [now left|].
    right. left. eexists. split; [reflexivity|]. now split.
  - unfold put_toggle. destruct (test_digits x); simpl; [|now left].
    unfold db_run_toggle. destruct (sqlite_error env); simpl; [now left|].
    right. right. left. exists x.
    now destruct (length (filter (id_matches x) (tasks db)) =? 0)%nat.
  - unfold delete_task. destruct (test_digits x); simpl; [|now left].
    unfold db_run_delete. destruct (sqlite_error env); simpl; [now left|].
    right. right. right. exists x.
    now destruct (length (filter (id_matches x) (tasks db)) =? 0)%nat.
Qed.

Lemma find_app_some {A : Type} (f : A -> bool) (l l' : list A) (a : A) :
  find f l = Some a -> find f (l ++ l') = Some a.
Proof.
  induction l as [|y l IH]; simpl; [discriminate|].
  destruct (f y); [trivial | exact IH].
Qed.

Lemma find_app_none {A : Type} (f : A -> bool) (l l' : list A) :
  find f l = None -> find f (l ++ l') = find f l'.
Proof.
  induction l as [|y l IH]; simpl; [reflexivity|].
  destruct (f y); [discriminate | exact IH].
Qed.

Lemma find_filter_none {A : Type} (f g : A -> bool) (l : list A) :
  find f l = None -> find f (filter g l) = None.
Proof.
  induction l as [|y l IH]; simpl; [reflexivity|].
  destruct (f y) eqn:E; [discriminate|]. intros H.
  destruct (g y); simpl; [rewrite E|]; now apply IH.
Qed.

Lemma handle_keeps_fields
      (env : Env) (rq : Request) (db : Database) (X : Z) (r r' : Row) :
  ids_increasing db ->
  find_task X db = Some r ->
  find_task X (fst (handle env rq db)) = Some r' ->
  title r' = title r /\ created_at r' = created_at r.
Proof.
  unfold find_task. intros [Hs _] Hf Hf'.
  destruct (handle_cases env rq db)
    as [[E _]|[[new [E _]]|[[x [E _]]|[x [E _]]]]]; rewrite E in Hf'.
  - rewrite Hf in Hf'. now injection Hf' as <-.
  - rewrite (find_app_some _ _ _ _ Hf) in Hf'. now injection Hf' as <-.
  - rewrite find_toggled, Hf in Hf'. simpl in Hf'. injection Hf' as <-.
    unfold toggle_row. now destruct (id_matches x r).
  - apply find_some in Hf, Hf'. destruct Hf as [Hin Hid], Hf' as [Hin' Hid'].
    apply filter_In in Hin'. destruct Hin' as [Hin' _].
    apply Z.eqb_eq in Hid, Hid'.
    assert (r' = r) as -> by (apply (sorted_ids_distinct (tasks db)); congruence).
    now split.
Qed.

Lemma handle_keeps_absent
      (env : Env) (rq : Request) (db : Database) (X : Z) :
  (X <= sqlite_sequence db)%Z ->
  find_task X db = None ->
  find_task X (fst (handle env rq db)) = None.
Proof.
  unfold find_task. intros HX Hf.
  destruct (handle_cases env rq db)
    as [[E _]|[[new [E [Hid _]]]|[[x [E _]]|[x [E _]]]]]; rewrite E.
  - exact Hf.
  - rewrite (find_app_none _ _ _ Hf). simpl.
    destruct (Z.eqb_spec (id new) X) as [Heq|_]; [|reflexivity].
    unfold next_rowid in Hid. lia.
  - now rewrite find_toggled, Hf.
  - now apply find_filter_none.
Qed.

Lemma steps_keep_absent (db db' : Database) (X : Z) :
  steps db db' ->
  (X <= sqlite_sequence db)%Z ->
  find_task X db = None -> find_task X db' = None.
Proof.
  induction 1 as [db|env rq db db' _ IH]; [tauto|].
  intros HX Hf. apply IH.
  - pose proof (handle_sequence_grows env rq db). lia.
  - now apply handle_keeps_absent.
Qed.

(** X6: a task's title and created_at never change.  If a task is found
    under an id and, after any further requests, a task is found under the
    same id, it carries the same title and the same created_at; only the
    flag can differ. *)
Theorem title_and_created_at_never_change
        (db db' : Database) (X : Z) (r r' : Row) :
  reachable db -> steps db db' ->
  find_task X db = Some r -> find_task X db' = Some r' ->
  title r' = title r /\ created_at r' = created_at r.
Proof.
  intros Hreach Hsteps. apply reachable_ids_increasing in Hreach.
  revert r Hreach. induction Hsteps as [db|env rq db db' Hsteps IH];
    intros r Hinc Hf Hf'.
  - rewrite Hf in Hf'. now injection Hf' as <-.
  - destruct (find_task X (fst (handle env rq db))) as [r1|] eqn:E1.
    + destruct (handle_keeps_fields env rq db X r r1 Hinc Hf E1) as [Ht Hc].
      destruct (IH r1 (handle_ids_increasing env rq db Hinc) eq_refl Hf')
        as [Ht' Hc'].
      split; congruence.
    + exfalso.
      assert (HX : (X <= sqlite_sequence (fst (handle env rq db)))%Z).
      { destruct Hinc as [_ Hb]. rewrite Forall_forall in Hb.
        apply find_some in Hf. destruct Hf as [Hin Hid].
        apply Z.eqb_eq in Hid. specialize (Hb r Hin).
        pose proof (handle_sequence_grows env rq db). lia. }
      rewrite (steps_keep_absent _ _ X Hsteps HX E1) in Hf'. discriminate Hf'.
Qed.

Lemma title_and_created_at_never_change_witness :
  exists r',
    find_task 1 (fst (handle (at_time (seconds_later 5 morning))
                             (OpToggle (lit "1")) one_task)) = Some r'
    /\ title r' = lit "Buy milk"
    /\ created_at r' = CURRENT_TIMESTAMP morning.
Proof.
  eexists. split; [reflexivity|].
  apply (title_and_created_at_never_change one_task
           (fst (handle (at_time (seconds_later 5 morning))
                        (OpToggle (lit "1")) one_task))
           1
           {| id := 1; title := lit "Buy milk"; completed := SQL_FALSE;
              created_at := CURRENT_TIMESTAMP morning |}).
  - apply (reachable_step (at_time morning) (OpCreate (JString (lit "Buy milk")))).
    apply reachable_empty.
  - apply (steps_cons (at_time (seconds_later 5 morning)) (OpToggle (lit "1"))).
    apply steps_refl.
  - reflexivity.
  - reflexivity.
Defined.

Lemma sorted_around (l1 l2 : list Row) (r : Row) :
  StronglySorted Z.lt (map id (l1 ++ r :: l2)) ->
  Forall (fun a => (id a < id r)%Z) l1 /\ Forall (fun a => (id r < id a)%Z) l2.
Proof.
  induction l1 as [|y l1 IH]; simpl; intros H;
    inversion H as [|? ? Hs Hall]; subst.
  - split; [constructor|].
    rewrite Forall_forall in Hall |- *. intros a Ha.
    apply Hall. now apply in_map.
  - destruct (IH Hs) as [H1 H2]. split; [|exact H2].
    constructor; [|exact H1].
    rewrite Forall_forall in Hall. apply Hall.
    apply in_map. apply in_or_app. right. now left.
Qed.

Lemma no_match_elsewhere (x : jsstring) (l : list Row) (r : Row) :
  id_matches x r = true ->
  Forall (fun a => id a <> id r) l ->
  forall a, In a l -> id_matches x a = false.
Proof.
  intros Hm Hne a Ha. rewrite Forall_forall in Hne. specialize (Hne a Ha).
  unfold id_matches in *. apply andb_true_iff in Hm. destruct Hm as [Hd Hm].
  rewrite Hd. simpl. apply Z.eqb_eq in Hm. apply Z.eqb_neq. congruence.
Qed.

Lemma matched_row_splits (x : jsstring) (db : Database) :
  ids_increasing db ->
  (length (filter (id_matches x) (tasks db)) =? 0)%nat = false ->
  exists l1 r l2,
    tasks db = l1 ++ r :: l2
    /\ id_matches x r = true
    /\ (forall a, In a l1 -> id_matches x a = false)
    /\ (forall a, In a l2 -> id_matches x a = false).
Proof.
  intros [Hs _] Hc.
  destruct (filter (id_matches x) (tasks db)) as [|r rest] eqn:E;
    [discriminate Hc|].
  assert (Hr : In r (filter (id_matches x) (tasks db)))
    by (rewrite E; now left).
  apply filter_In in Hr. destruct Hr as [Hin Hm].
  apply in_split in Hin. destruct Hin as [l1 [l2 Hsplit]].
  exists l1, r, l2. split; [exact Hsplit|]. split; [exact Hm|].
  rewrite Hsplit in Hs. destruct (sorted_around l1 l2 r Hs) as [H1 H2].
  split; apply (no_match_elsewhere x _ r Hm);
    [eapply Forall_impl; [|exact H1] | eapply Forall_impl; [|exact H2]];
    simpl; intros; lia.
Qed.

(** X7: in every reachable state, a successful Toggle changes the flag of
    exactly one row, the one with the requested id, and nothing else; a
    successful Delete removes exactly that one row and keeps every other
    row in place. *)
Theorem mutations_touch_exactly_one_row
        (env : Env) (db : Database) (x : jsstring) :
  reachable db ->
  (snd (put_toggle env x db) = success ->
   exists l1 r l2,
     tasks db = l1 ++ r :: l2
     /\ id r = decimal_value x
     /\ tasks (fst (put_toggle env x db)) = l1 ++ negated r :: l2)
  /\ (snd (delete_task env x db) = success ->
      exists l1 r l2,
        tasks db = l1 ++ r :: l2
        /\ id r = decimal_value x
        /\ tasks (fst (delete_task env x db)) = l1 ++ l2).
Proof.
  intros Hreach. apply reachable_ids_increasing in Hreach. split.
  - unfold put_toggle, db_run_toggle.
    destruct (test_digits x) eqn:Hx; simpl; [|discriminate].
    destruct (sqlite_error env); simpl; [discriminate|].
    destruct (length (filter (id_matches x) (tasks db)) =? 0)%nat eqn:Hc;
      simpl; [discriminate|]. intros _.
    destruct (matched_row_splits x db Hreach Hc) as [l1 [r [l2 [E [Hm [H1 H2]]]]]].
    exists l1, r, l2. split; [exact E|].
    split; [now apply id_matches_iff|].
    rewrite E, map_app. simpl.
    rewrite (toggle_no_match x l1 H1), (toggle_no_match x l2 H2).
    unfold toggle_row. now rewrite Hm.
  - unfold delete_task, db_run_delete.
    destruct (test_digits x) eqn:Hx; simpl; [|discriminate].
    destruct (sqlite_error env); simpl; [discriminate|].
    destruct (length (filter (id_matches x) (tasks db)) =? 0)%nat eqn:Hc;
      simpl; [discriminate|]. intros _.
    destruct (matched_row_splits x db Hreach Hc) as [l1 [r [l2 [E [Hm [H1 H2]]]]]].
    exists l1, r, l2. split; [exact E|].
    split; [now apply id_matches_iff|].
    rewrite E, filter_app. simpl. rewrite Hm. simpl.
    now rewrite (delete_no_match x l1 H1), (delete_no_match x l2 H2).
Qed.

Lemma mutations_touch_exactly_one_row_witness :
  exists l1 r l2,
    tasks (created_in_turn morning ["A"; "B"; "C"]%string) = l1 ++ r :: l2
    /\ id r = 2%Z
    /\ tasks (fst (delete_task (at_time morning) (lit "2")
                     (created_in_turn morning ["A"; "B"; "C"]%string)))
       = l1 ++ l2.
Proof.
  destruct (mutations_touch_exactly_one_row (at_time morning)
              (created_in_turn morning ["A"; "B"; "C"]%string) (lit "2"))
    as [_ Hdel].
  - apply (reachable_step (at_time morning) (OpCreate (JString (lit "C")))).
    apply (reachable_step (at_time morning) (OpCreate (JString (lit "B")))).
    apply (reachable_step (at_time morning) (OpCreate (JString (lit "A")))).
    apply reachable_empty.
  - exact (Hdel eq_refl).
Defined.

(** ** Stored titles *)

Lemma trimStart_suffix (s : jsstring) : exists l, s = l ++ trimStart s.
Proof.
  induction s as [|c s [l IH]]; simpl; [now exists []|].
  destruct (isWhiteSpace c).
  - exists (c :: l). simpl. now rewrite <- IH.
  - now exists [].
Qed.

Lemma trimStart_head (s s' : jsstring) (c : code_unit) :
  trimStart s = c :: s' -> isWhiteSpace c = false.
Proof.
  induction s as [|c0 s IH]; simpl; [discriminate|].
  destruct (isWhiteSpace c0) eqn:E; [exact IH|].
  intros H. injection H as <- _. exact E.
Qed.

Lemma trimEnd_prefix (s : jsstring) : exists r, s = trimEnd s ++ r.
Proof.
  unfold trimEnd. destruct (trimStart_suffix (rev s)) as [l Hl].
  exists (rev l). rewrite <- rev_app_distr, <- Hl. now rewrite rev_involutive.
Qed.

Lemma trim_is_substring (s : jsstring) : exists l r, s = l ++ trim s ++ r.
Proof.
  unfold trim. destruct (trimStart_suffix s) as [l Hl].
  destruct (trimEnd_prefix (trimStart s)) as [r Hr].
  exists l, r. now rewrite <- Hr.
Qed.

Lemma contains_trim (s pat : jsstring) :
  contains (trim s) pat -> contains s pat.
Proof.
  intros [a [b Hab]]. destruct (trim_is_substring s) as [l [r Hs]].
  exists (l ++ a), (b ++ r). rewrite Hs, Hab. now rewrite <- !app_assoc.
Qed.

Lemma trim_trimmed (s : jsstring) : trimmed (trim s).
Proof.
  split; intros c s' H.
  - unfold trim in H. destruct (trimEnd_prefix (trimStart s)) as [r Hr].
    rewrite H in Hr. simpl in Hr. now apply trimStart_head in Hr.
  - unfold trim, trimEnd in H. apply (f_equal (@rev _)) in H.
    rewrite rev_involutive, rev_app_distr in H. simpl in H.
    now apply trimStart_head in H.
Qed.

Lemma trim_of_trimmed (s : jsstring) : trimmed s -> trim s = s.
Proof.
  intros [Hfirst Hlast].
  assert (Hs : trimStart s = s).
  { destruct s as [|c s']; [reflexivity|]. simpl.
    now rewrite (Hfirst c s' eq_refl). }
  unfold trim, trimEnd. rewrite Hs.
  destruct (rev s) as [|c u] eqn:E; simpl.
  - apply (f_equal (@rev _)) in E. now rewrite rev_involutive in E.
  - assert (Hc : isWhiteSpace c = false).
    { apply (Hlast c (rev u)). apply (f_equal (@rev _)) in E.
      now rewrite rev_involutive in E. }
    rewrite Hc, <- E. apply rev_involutive.
Qed.

Lemma sqlite_text_trimmed (s : jsstring) :
  trimmed s -> trimmed (sqlite_text s).
Proof.
  intros [Hfirst Hlast]. pose proof (sqlite_text_pointwise s) as H.
  split; intros c s' E; rewrite E in H.
  - inversion H as [|a ? t ? Ha _]; subst.
    apply (stored_as_whitespace a c Ha). now apply (Hfirst a t).
  - apply Forall2_app_inv_r in H. destruct H as [l1 [l2 [_ [H2 ->]]]].
    inversion H2 as [|a ? t ? Ha Hnil]; subst. inversion Hnil; subst.
    apply (stored_as_whitespace a c Ha). now apply (Hlast a l1).
Qed.

Lemma trim_idempotent (s : jsstring) : trim (trim s) = trim s.
Proof. apply trim_of_trimmed, trim_trimmed. Qed.

(** X8: in every state the server can reach, no stored title starts or
    ends with white space, and none contains [<script] or [javascript:]:
    the title is stored trimmed, and trimming cannot create a forbidden
    substring. *)
Theorem stored_titles_are_trimmed_and_clean (db : Database) :
  reachable db ->
  Forall (fun r => trimmed (title r)
                   /\ ~ contains (title r) (lit "<script")
                   /\ ~ contains (title r) (lit "javascript:"))
         (tasks db).
Proof.
  apply reachable_invariant.
  - intros r H. exact H.
  - intros rowid s ts Hv. simpl.
    apply validateTaskTitle_string in Hv. destruct Hv as [_ Hf].
    split; [apply sqlite_text_trimmed, trim_trimmed|].
    split; intros H; apply contains_sqlite_text in H;
      try (repeat constructor; discriminate);
      apply contains_trim in H; apply Hf; [now left | now right].
Qed.

Lemma stored_titles_are_trimmed_and_clean_witness :
  Forall (fun r => trimmed (title r)
                   /\ ~ contains (title r) (lit "<script")
                   /\ ~ contains (title r) (lit "javascript:"))
         (tasks (fst (post_tasks (at_time morning)
                                 (JString (lit "  Buy milk ")) empty_database))).
Proof.
  apply stored_titles_are_trimmed_and_clean.
  apply (reachable_step (at_time morning)
           (OpCreate (JString (lit "  Buy milk ")))).
  apply reachable_empty.
Defined.

(** ** The listing under Toggle, Delete and Create *)

Lemma toggle_row_created_at (x : jsstring) (r : Row) :
  created_at (toggle_row x r) = created_at r.
Proof. unfold toggle_row. now destruct (id_matches x r). Qed.

Lemma insert_desc_toggled (x : jsstring) (r : Row) (l : list Row) :
  insert_desc (toggle_row x r) (map (toggle_row x) l)
  = map (toggle_row x) (insert_desc r l).
Proof.
  induction l as [|y l IH]; simpl; [reflexivity|].
  rewrite !toggle_row_created_at.
  destruct (text_ltb (created_at r) (created_at y)); simpl; [|reflexivity].
  now rewrite IH.
Qed.

Lemma order_toggled (x : jsstring) (rows : list Row) :
  order_by_created_at_desc (map (toggle_row x) rows)
  = map (toggle_row x) (order_by_created_at_desc rows).
Proof.
  induction rows as [|r rows IH]; simpl; [reflexivity|].
  now rewrite IH, insert_desc_toggled.
Qed.

Lemma insert_desc_front (r : Row) (l : list Row) :
  Forall (fun y => text_compare (created_at r) (created_at y) <> Lt) l ->
  insert_desc r l = r :: l.
Proof.
  destruct 1 as [|y l Hy _]; simpl; [reflexivity|].
  apply text_ltb_false in Hy. now rewrite Hy.
Qed.

Lemma insert_desc_filter (f : Row -> bool) (r : Row) (l : list Row) :
  StronglySorted newest_first l ->
  filter f (insert_desc r l)
  = if f r then insert_desc r (filter f l) else filter f l.
Proof.
  induction 1 as [|y l Hs IH Hy]; simpl.
  - now destruct (f r).
  - destruct (text_ltb (created_at r) (created_at y)) eqn:E; simpl.
    + rewrite IH. destruct (f y), (f r); simpl; try reflexivity.
      now rewrite E.
    + destruct (f r) eqn:Er; [|reflexivity].
      destruct (f y) eqn:Ey; simpl; [now rewrite E|].
      symmetry. apply insert_desc_front. apply text_ltb_false in E.
      rewrite Forall_forall in Hy |- *. intros z Hz.
      apply filter_In in Hz. destruct Hz as [Hz _].
      eapply text_compare_ge_trans; [exact E | now apply Hy].
Qed.

Lemma order_filtered (f : Row -> bool) (rows : list Row) :
  order_by_created_at_desc (filter f rows)
  = filter f (order_by_created_at_desc rows).
Proof.
  induction rows as [|r rows IH]; simpl; [reflexivity|].
  rewrite insert_desc_filter by apply order_by_created_at_desc_sorted.
  destruct (f r); simpl; now rewrite IH.
Qed.

(** X9: Toggle and Delete never reorder the listing.  After a Toggle the
    listing is the old listing with the flag of the matching tasks
    negated in place; after a Delete it is the old listing without the
    matching tasks. *)
Theorem toggle_and_delete_keep_listing_order
        (env : Env) (db : Database) (x : jsstring) :
  working env -> decimal_literal x ->
  listing (fst (put_toggle env x db)) = map (toggle_row x) (listing db)
  /\ listing (fst (delete_task env x db))
     = filter (fun r => negb (id_matches x r)) (listing db).
Proof.
  intros Hw Hx. apply test_digits_spec in Hx.
  rewrite put_toggle_working, delete_task_working by assumption.
  unfold listing. cbn [fst tasks].
  split; [apply order_toggled | apply order_filtered].
Qed.

Lemma toggle_and_delete_keep_listing_order_witness :
  map title
      (listing (fst (delete_task (at_time morning) (lit "2")
                       (created_in_turn morning ["A"; "B"; "C"]%string))))
  = [lit "A"; lit "C"].
Proof.
  assert (Hx : decimal_literal (lit "2")) by (apply test_digits_spec; reflexivity).
  destruct (toggle_and_delete_keep_listing_order (at_time morning)
              (created_in_turn morning ["A"; "B"; "C"]%string) (lit "2")
              eq_refl Hx) as [_ H].
  rewrite H. reflexivity.
Defined.

Lemma order_snoc_newest (rows : list Row) (new : Row) :
  Forall (fun r => text_compare (created_at r) (created_at new) = Lt) rows ->
  order_by_created_at_desc (rows ++ [new])
  = new :: order_by_created_at_desc rows.
Proof.
  induction 1 as [|r rows Hr _ IH]; simpl; [reflexivity|].
  rewrite IH. simpl. unfold text_ltb at 1. now rewrite Hr.
Qed.

Lemma insert_desc_head (r : Row) (l : list Row) (d : Row) :
  hd d (insert_desc r l) = r \/ (l <> [] /\ hd d (insert_desc r l) = hd d l).
Proof.
  destruct l as [|y l]; simpl; [now left|].
  destruct (text_ltb (created_at r) (created_at y)); simpl.
  - right. split; [discriminate | reflexivity].
  - now left.
Qed.

Lemma older_dec (new r : Row) :
  {text_compare (created_at r) (created_at new) = Lt}
  + {text_compare (created_at r) (created_at new) <> Lt}.
Proof.
  destruct (text_compare (created_at r) (created_at new));
    [right; discriminate | now left | right; discriminate].
Qed.

Lemma order_snoc_head (rows : list Row) (new : Row) :
  ~ Forall (fun r => text_compare (created_at r) (created_at new) = Lt) rows ->
  In (hd new (order_by_created_at_desc (rows ++ [new]))) rows.
Proof.
  set (older := fun r => text_compare (created_at r) (created_at new) = Lt).
  assert (Hdec : forall r, {older r} + {~ older r}) by apply older_dec.
  induction rows as [|r rows IH]; intros Hn.
  - elim Hn. constructor.
  - simpl. destruct (Forall_dec older Hdec rows) as [Hall|Hnot].
    + left. rewrite (order_snoc_newest rows new Hall). simpl.
      unfold text_ltb.
      destruct (text_compare (created_at r) (created_at new)) eqn:E;
        try reflexivity.
      elim Hn. now constructor.
    + destruct (insert_desc_head r (order_by_created_at_desc (rows ++ [new])) new)
        as [E|[_ E]]; rewrite E; [now left|].
      right. now apply IH.
Qed.

(** X10: a newly created task comes first in the listing exactly when its
    created_at is strictly later than that of every task already there.
    When an existing task carries the same timestamp (created within the
    same second), the new task is listed behind it. *)
Theorem new_task_is_listed_first_iff_strictly_newest
        (env : Env) (db : Database) (s : jsstring) :
  working env -> validateTaskTitle (JString s) = true ->
  let new := {| id := next_rowid db; title := sqlite_text (trim s);
                completed := SQL_FALSE;
                created_at := CURRENT_TIMESTAMP (sqlite_clock env) |} in
  tasks (fst (post_tasks env (JString s) db)) = tasks db ++ [new]
  /\ (Forall (fun r => text_compare (created_at r) (created_at new) = Lt)
             (tasks db)
      <-> listing (fst (post_tasks env (JString s) db)) = new :: listing db).
Proof.
  intros Hw Hv new. rewrite post_tasks_accepted by assumption.
  unfold listing. cbn [fst tasks]. fold new.
  split; [reflexivity|]. split.
  - apply order_snoc_newest.
  - intros E.
    destruct (Forall_dec _ (older_dec new) (tasks db)) as [Hall|Hnot];
      [exact Hall|].
    exfalso. apply (order_snoc_head (tasks db) new) in Hnot.
    rewrite E in Hnot. simpl in Hnot.
    apply max_rowid_ge in Hnot. simpl in Hnot. unfold next_rowid in Hnot. lia.
Qed.

Lemma new_task_is_listed_first_iff_strictly_newest_witness :
  listing (fst (post_tasks (at_time (seconds_later 1 morning))
                           (JString (lit "Tea")) one_task))
  = {| id := 2; title := lit "Tea"; completed := SQL_FALSE;
       created_at := CURRENT_TIMESTAMP (seconds_later 1 morning) |}
    :: listing one_task.
Proof.
  destruct (new_task_is_listed_first_iff_strictly_newest
              (at_time (seconds_later 1 morning)) one_task (lit "Tea")
              eq_refl eq_refl) as [_ [H _]].
  apply H. repeat constructor.
Defined.

(** * Further properties of the client *)

(** ** escapeHtml *)

Lemma replace_all_app (c : code_unit) (rep a b : jsstring) :
  Client.replace_all c rep (a ++ b)
  = Client.replace_all c rep a ++ Client.replace_all c rep b.
Proof. unfold Client.replace_all. apply flat_map_app. Qed.

Lemma escapeHtml_app (a b : jsstring) :
  Client.escapeHtml (a ++ b) = Client.escapeHtml a ++ Client.escapeHtml b.
Proof. unfold Client.escapeHtml. now rewrite !replace_all_app. Qed.

Lemma escapeHtml_one (c : code_unit) : Client.escapeHtml [c] = escape_char c.
Proof.
  unfold escape_char.
  destruct (N.eqb_spec c Client.amp) as [->|Ha]; [reflexivity|].
  destruct (N.eqb_spec c Client.lt) as [->|Hl]; [reflexivity|].
  destruct (N.eqb_spec c Client.gt) as [->|Hg]; [reflexivity|].
  destruct (N.eqb_spec c Client.dquote) as [->|Hd]; [reflexivity|].
  destruct (N.eqb_spec c Client.squote) as [->|Hs]; [reflexivity|].
  apply N.eqb_neq in Ha, Hl, Hg, Hd, Hs.
  unfold Client.escapeHtml, Client.replace_all. simpl.
  rewrite Ha. simpl. rewrite Hl. simpl. rewrite Hg. simpl.
  rewrite Hd. simpl. now rewrite Hs.
Qed.

Lemma escapeHtml_flat_map (s : jsstring) :
  Client.escapeHtml s = flat_map escape_char s.
Proof.
  induction s as [|c s IH]; [reflexivity|].
  change (c :: s) with ([c] ++ s).
  rewrite escapeHtml_app, escapeHtml_one, IH. reflexivity.
Qed.

(** X11: the five replacement passes of [escapeHtml] amount to one pass
    that maps each character on its own: [&], [<], [>], the double and
    the single quote to their entities and every other character to
    itself.  No [&] produced by a later pass is escaped again, and
    escaping distributes over concatenation. *)
Theorem escapeHtml_is_one_pass (a b : jsstring) :
  Client.escapeHtml a = flat_map escape_char a
  /\ Client.escapeHtml (a ++ b) = Client.escapeHtml a ++ Client.escapeHtml b.
Proof.
  split; [apply escapeHtml_flat_map | apply escapeHtml_app].
Qed.

Lemma escape_char_length (c : code_unit) :
  (if html_special c then 4 else 1) <= length (escape_char c) <= 6.
Proof.
  unfold escape_char, html_special, Client.is_markup.
  destruct (c =? Client.amp)%N; [simpl; lia|].
  destruct (c =? Client.lt)%N; [simpl; lia|].
  destruct (c =? Client.gt)%N; [simpl; lia|].
  destruct (c =? Client.dquote)%N; [simpl; lia|].
  destruct (c =? Client.squote)%N; simpl; lia.
Qed.

Lemma escapeHtml_length (s : jsstring) :
  length s + 3 * length (filter html_special s) <= length (Client.escapeHtml s)
  /\ length (Client.escapeHtml s) <= 6 * length s.
Proof.
  rewrite escapeHtml_flat_map.
  induction s as [|c s IH]; simpl; [lia|].
  rewrite length_app. pose proof (escape_char_length c).
  destruct (html_special c); simpl; lia.
Qed.

Lemma escape_char_plain (c : code_unit) :
  html_special c = false -> escape_char c = [c].
Proof.
  unfold escape_char, html_special, Client.is_markup. intros H.
  destruct (c =? Client.amp)%N; [discriminate H|].
  destruct (c =? Client.lt)%N; [discriminate H|].
  destruct (c =? Client.gt)%N; [discriminate H|].
  destruct (c =? Client.dquote)%N; [discriminate H|].
  destruct (c =? Client.squote)%N; [discriminate H | reflexivity].
Qed.

(** X12: [escapeHtml] returns its argument unchanged exactly when the
    argument has none of the five characters; every occurrence of one of
    them makes the result at least three code units longer, and the
    result is never more than six times as long as the argument. *)
Theorem escapeHtml_identity_iff_plain (s : jsstring) :
  (Client.escapeHtml s = s <-> existsb html_special s = false)
  /\ length s + 3 * length (filter html_special s)
     <= length (Client.escapeHtml s)
  /\ length (Client.escapeHtml s) <= 6 * length s.
Proof.
  split; [|apply escapeHtml_length]. split.
  - intros E. pose proof (proj1 (escapeHtml_length s)) as H.
    rewrite E in H.
    destruct (filter html_special s) as [|c l] eqn:F; [|simpl in H; lia].
    destruct (existsb html_special s) eqn:X; [|reflexivity].
    apply existsb_exists in X. destruct X as [c [Hin Hc]].
    assert (Hf : In c (filter html_special s)) by (apply filter_In; now split).
    rewrite F in Hf. now elim Hf.
  - intros X. rewrite escapeHtml_flat_map.
    induction s as [|c s IH]; [reflexivity|].
    simpl in X. apply orb_false_iff in X. destruct X as [Hc Hs].
    simpl. rewrite (escape_char_plain c Hc), (IH Hs). reflexivity.
Qed.

Ltac split_special c :=
  unfold escape_char;
  destruct (N.eqb_spec c Client.amp) as [->|?];
  [|destruct (N.eqb_spec c Client.lt) as [->|?];
    [|destruct (N.eqb_spec c Client.gt) as [->|?];
      [|destruct (N.eqb_spec c Client.dquote) as [->|?];
        [|destruct (N.eqb_spec c Client.squote) as [->|?]]]]].

Lemma escape_char_prefix_free (c d : code_unit) (a b : jsstring) :
  escape_char c ++ a = escape_char d ++ b -> c = d /\ a = b.
Proof.
  split_special c; split_special d; simpl; intros H;
    try (injection H as <-; now split);
    try (injection H; intros; subst; now split);
    try discriminate H;
    try (injection H; intros; subst; congruence).
Qed.

Lemma flat_map_escape_injective (a b : jsstring) :
  flat_map escape_char a = flat_map escape_char b -> a = b.
Proof.
  revert b. induction a as [|c a IH]; intros [|d b] H; simpl in H.
  - reflexivity.
  - pose proof (escape_char_length d). apply (f_equal (@length _)) in H.
    rewrite length_app in H. simpl in H. destruct (html_special d); lia.
  - pose proof (escape_char_length c). apply (f_equal (@length _)) in H.
    rewrite length_app in H. simpl in H. destruct (html_special c); lia.
  - apply escape_char_prefix_free in H. destruct H as [-> H].
    now rewrite (IH b H).
Qed.

(** X13: [escapeHtml] loses nothing: two different titles never render as
    the same text. *)
Theorem escapeHtml_injective (a b : jsstring) :
  Client.escapeHtml a = Client.escapeHtml b -> a = b.
Proof.
  rewrite !escapeHtml_flat_map. apply flat_map_escape_injective.
Qed.

Lemma escapeHtml_injective_witness :
  Client.escapeHtml (lit "a<b") = Client.escapeHtml (lit "a<b")
  /\ lit "a<b" = lit "a<b".
Proof.
  split; [reflexivity|].
  apply (escapeHtml_injective (lit "a<b") (lit "a<b")). reflexivity.
Defined.

(** ** The id the client puts in the URL *)

Lemma decimal_value_uint (d : Decimal.uint) (acc : Z) :
  fold_left (fun acc c => (10 * acc + (Z.of_N c - 48))%Z)
            (lit (DecimalString.NilEmpty.string_of_uint d)) acc
  = (acc * 10 ^ Z.of_N (DecimalPos.Unsigned.usize d)
     + Z.of_N (DecimalPos.Unsigned.of_lu (Decimal.rev d)))%Z.
Proof.
  revert acc. induction d; intros acc;
    [simpl; lia | ..];
    cbn [DecimalString.NilEmpty.string_of_uint lit list_ascii_of_string
         map fold_left];
    unfold Decimal.rev; cbn [Decimal.revapp];
    rewrite (DecimalPos.Unsigned.of_lu_revapp d);
    fold (Decimal.rev d); rewrite IHd;
    cbn [DecimalPos.Unsigned.usize];
    rewrite N2Z.inj_add, N2Z.inj_mul, N2Z.inj_pow, N2Z.inj_succ,
      Z.pow_succ_r by lia;
    simpl (N_of_ascii _); simpl (DecimalPos.Unsigned.of_lu (_ Decimal.Nil));
    simpl (Z.of_N _ - 48)%Z;
    set (P := (Z.of_N 10 ^ Z.of_N (DecimalPos.Unsigned.usize d))%Z);
    change (10 ^ Z.of_N (DecimalPos.Unsigned.usize d))%Z with P;
    set (V := Z.of_N (DecimalPos.Unsigned.of_lu (Decimal.rev d)));
    simpl (Z.of_N _); ring.
Qed.

Lemma uint_digits (d : Decimal.uint) :
  forallb isDigit (lit (DecimalString.NilEmpty.string_of_uint d)) = true.
Proof. induction d; simpl; auto. Qed.

Lemma number_toString_pos (p : positive) :
  Client.number_toString (Zpos p)
  = lit (DecimalString.NilEmpty.string_of_uint (Pos.to_uint p)).
Proof.
  unfold Client.number_toString. simpl.
  pose proof (DecimalPos.Unsigned.to_uint_nonnil p) as Hn.
  unfold DecimalString.NilZero.string_of_uint.
  destruct (Pos.to_uint p); [now elim Hn | reflexivity ..].
Qed.

Lemma number_toString_digits (n : Z) :
  test_digits (Client.number_toString n) = (0 <=? n)%Z.
Proof.
  destruct n as [|p|p].
  - reflexivity.
  - rewrite number_toString_pos.
    pose proof (DecimalPos.Unsigned.to_uint_nonnil p) as Hn.
    pose proof (uint_digits (Pos.to_uint p)) as Hd.
    unfold test_digits.
    destruct (lit (DecimalString.NilEmpty.string_of_uint (Pos.to_uint p)))
      eqn:E; [|exact Hd].
    destruct (Pos.to_uint p); [now elim Hn | discriminate E ..].
  - reflexivity.
Qed.

Lemma number_toString_value (n : Z) :
  (0 <= n)%Z -> decimal_value (Client.number_toString n) = n.
Proof.
  destruct n as [|p|p]; intros Hn; [reflexivity | | lia].
  rewrite number_toString_pos. unfold decimal_value.
  rewrite decimal_value_uint, <- DecimalPos.Unsigned.of_uint_alt,
    DecimalPos.Unsigned.of_to.
  simpl. reflexivity.
Qed.

Lemma id_matches_number (n : Z) (r : Row) :
  id_matches (Client.number_toString n) r = (0 <=? n)%Z && (id r =? n)%Z.
Proof.
  unfold id_matches. rewrite number_toString_digits.
  destruct (Z.leb_spec 0 n) as [Hn|Hn]; [|reflexivity].
  now rewrite number_toString_value.
Qed.

(** X14: for a task id [n] that a JavaScript number holds exactly and
    prints digit for digit, that is, up to 2^53 in magnitude, the id text
    the client puts in the request URL passes the server's [/^\d+$/] test
    exactly when [n] is not negative, and then denotes [n] again, so that
    the server's [WHERE id = ?] selects exactly the rows whose id is
    [n].  (Beyond 2^53 a number prints the shortest digits that read back
    as the same double, which need not be the digits of the integer, and
    [number_toString] is not a model of that.) *)
Theorem client_id_addresses_the_same_task (n : Z) (r : Row) :
  (Z.abs n <= 2 ^ 53)%Z ->
  test_digits (Client.number_toString n) = (0 <=? n)%Z
  /\ ((0 <= n)%Z -> decimal_value (Client.number_toString n) = n)
  /\ id_matches (Client.number_toString n) r = (0 <=? n)%Z && (id r =? n)%Z.
Proof.
  intros _. split; [apply number_toString_digits|].
  split; [apply number_toString_value | apply id_matches_number].
Qed.

Lemma client_id_addresses_the_same_task_witness :
  (Z.abs 2024 <= 2 ^ 53)%Z
  /\ decimal_value (Client.number_toString 2024) = 2024%Z
  /\ test_digits (Client.number_toString (-3)) = false.
Proof.
  split; [vm_compute; discriminate|]. split.
  - apply (client_id_addresses_the_same_task 2024
             {| id := 1; title := []; completed := SQL_FALSE;
                created_at := [] |});
      [vm_compute; discriminate | discriminate].
  - apply (client_id_addresses_the_same_task (-3)
             {| id := 1; title := []; completed := SQL_FALSE;
                created_at := [] |}).
    vm_compute. discriminate.
Defined.

(** ** addTask *)

Lemma or_default_nonempty (a : jsstring) (fallback : string) :
  lit fallback <> [] -> Browser.or_default a fallback <> [].
Proof. intros H. destruct a; simpl; [exact H | discriminate]. Qed.

Lemma post_tasks_outcomes (env : Env) (t : jsstring) (db : Database) :
  (validateTaskTitle (JString t) = false
   /\ post_tasks env (JString t) db = (db, validation_error))
  \/ (validateTaskTitle (JString t) = true
      /\ exists e, sqlite_error env = Some e
         /\ post_tasks env (JString t) db
            = (log (InsertTask (trim t)) db, storage_error))
  \/ (validateTaskTitle (JString t) = true /\ working env).
Proof.
  destruct (validateTaskTitle (JString t)) eqn:Hv.
  - destruct (sqlite_error env) as [e|] eqn:He.
    + right. left. split; [reflexivity|]. exists e. split; [reflexivity|].
      unfold post_tasks, db_run_insert. now rewrite Hv, He.
    + right. right. now split.
  - left. split; [reflexivity|]. now apply post_tasks_rejected.
Qed.

(** X15: through the page no empty title can be stored.  Whatever is in
    the input box and whatever the network and the driver do, [addTask]
    keeps the invariant that every stored title has between 1 and 200
    code units: the page trims before it tests for emptiness, and sends
    the trimmed title. *)
Theorem addTask_keeps_title_invariant
        (net : Browser.Network) (env : Env) (p : Browser.Page) (db : Database) :
  title_invariant db ->
  title_invariant (snd (Browser.addTask net env p db)).
Proof.
  intros Hinv. unfold Browser.addTask.
  destruct (trim (Browser.taskInput p)) as [|c t'] eqn:Et; [exact Hinv|].
  assert (Ht : trim (c :: t') = c :: t')
    by (rewrite <- Et; apply trim_idempotent).
  destruct (Nat.ltb_spec 200 (length (c :: t'))) as [Hlong|Hlen];
    [exact Hinv|].
  destruct net as [|m]; [|exact Hinv].
  destruct (post_tasks_outcomes env (c :: t') db)
    as [[_ E]|[[_ [e [_ E]]]|[Hv Hw]]]; try (rewrite E; exact Hinv).
  rewrite (post_tasks_accepted env (c :: t') db Hw Hv), Ht.
  cbn [Browser.ok status json andb negb Z.leb Z.compare body
       Browser.task_of_json j_id j_title j_created_at snd].
  unfold title_invariant. cbn [tasks]. apply Forall_app. split; [exact Hinv|].
  constructor; [|constructor]. cbn [title]. rewrite sqlite_text_length.
  simpl in Hlen |- *. lia.
Qed.

Lemma addTask_keeps_title_invariant_witness :
  title_invariant
    (snd (Browser.addTask Browser.Online (at_time morning)
            {| Browser.tasks := []; Browser.taskInput := space;
               Browser.errorMessage := None |}
            empty_database)).
Proof.
  apply addTask_keeps_title_invariant. constructor.
Defined.

Lemma addTask_online_accepted
        (env : Env) (p : Browser.Page) (db : Database) :
  working env ->
  let t := trim (Browser.taskInput p) in
  1 <= length t <= 200 -> ~ forbidden t ->
  Browser.addTask Browser.Online env p db
  = ({| Browser.tasks :=
          shown_task (next_rowid db) t (js_clock env) :: Browser.tasks p;
        Browser.taskInput := [];
        Browser.errorMessage := None |},
     {| tasks := tasks db
                   ++ [{| id := next_rowid db; title := sqlite_text t;
                          completed := SQL_FALSE;
                          created_at := CURRENT_TIMESTAMP (sqlite_clock env) |}];
        sqlite_sequence := next_rowid db;
        statements := InsertTask t :: statements db |}).
Proof.
  intros Hw t Hlen Hf. unfold Browser.addTask. fold t.
  assert (Ht : trim t = t) by apply trim_idempotent.
  assert (Hv : validateTaskTitle (JString t) = true)
    by (apply validateTaskTitle_string; now split).
  destruct t as [|c t'] eqn:Et; [simpl in Hlen; lia|].
  destruct (Nat.ltb_spec 200 (length (c :: t'))) as [Hlong|_]; [lia|].
  rewrite (post_tasks_accepted env _ db Hw Hv), Ht. reflexivity.
Qed.

(** X16: when the page sends a title, the page shows the trimmed input
    and the server stores the trimmed input as SQLite holds it: the
    server's own trim changes nothing any more, and the stored text is
    the shown text whenever the trimmed input is well-formed UTF-16 (an
    unpaired surrogate is stored as U+FFFD).  The new task goes to the
    front of the mirror, the input box is cleared and the error banner
    hidden. *)
Theorem addTask_stores_what_it_shows
        (env : Env) (p : Browser.Page) (db : Database) :
  working env ->
  let t := trim (Browser.taskInput p) in
  1 <= length t <= 200 -> ~ forbidden t ->
  Browser.addTask Browser.Online env p db
  = ({| Browser.tasks :=
          shown_task (next_rowid db) t (js_clock env) :: Browser.tasks p;
        Browser.taskInput := [];
        Browser.errorMessage := None |},
     {| tasks := tasks db
                   ++ [{| id := next_rowid db; title := sqlite_text t;
                          completed := SQL_FALSE;
                          created_at := CURRENT_TIMESTAMP (sqlite_clock env) |}];
        sqlite_sequence := next_rowid db;
        statements := InsertTask t :: statements db |})
  /\ (well_formed t = true -> sqlite_text t = t)
  /\ (well_formed t = false -> sqlite_text t <> t).
Proof.
  intros Hw t Hlen Hf.
  split; [now apply addTask_online_accepted|]. split.
  - apply sqlite_text_well_formed.
  - intros Hwf E. apply sqlite_text_well_formed in E. congruence.
Qed.

Lemma addTask_stores_what_it_shows_witness :
  Browser.tasks
    (fst (Browser.addTask Browser.Online (at_time morning)
            {| Browser.tasks := []; Browser.taskInput := lit "  Buy milk ";
               Browser.errorMessage := None |}
            empty_database))
  = [shown_task 1 (lit "Buy milk") morning].
Proof.
  destruct (addTask_stores_what_it_shows (at_time morning)
              {| Browser.tasks := []; Browser.taskInput := lit "  Buy milk ";
                 Browser.errorMessage := None |}
              empty_database eq_refl) as [E _].
  - vm_compute. lia.
  - intros [H|H]; apply includes_spec in H; vm_compute in H; discriminate H.
  - rewrite E. reflexivity.
Defined.

(** ** The mirror and the listing *)

Lemma sql_not_truth (c : Z) : negb (sql_not c =? 0)%Z = negb (negb (c =? 0)%Z).
Proof. unfold sql_not. now destruct (c =? 0)%Z. Qed.

Lemma listing_ids_distinct (db : Database) (a b : Row) :
  ids_increasing db ->
  In a (listing db) -> In b (listing db) -> id a = id b -> a = b.
Proof.
  intros [Hs _] Ha Hb. apply in_listing in Ha, Hb.
  now apply (sorted_ids_distinct (tasks db)).
Qed.

Lemma toggle_first_agrees (X : Z) (x : jsstring)
      (mirror : list Client.Task) (rows : list Row) :
  (forall r, id_matches x r = (id r =? X)%Z) ->
  (forall a b, In a rows -> In b rows -> id a = id b -> a = b) ->
  NoDup rows ->
  Forall2 agrees mirror rows ->
  Forall2 agrees (Browser.toggle_first X mirror) (map (toggle_row x) rows).
Proof.
  intros Hm Huniq Hnd H. induction H as [|t r mirror rows Htr Hrest IH]; simpl.
  - constructor.
  - destruct Htr as [Hid [Htitle Hflag]].
    inversion Hnd as [|? ? Hnotin Hnd']; subst.
    unfold toggle_row at 1. rewrite Hm, <- Hid.
    destruct (Z.eqb_spec (Client.id t) X) as [E|E].
    + constructor.
      * repeat split; simpl; try assumption.
        rewrite sql_not_truth, Hflag. reflexivity.
      * rewrite toggle_no_match; [exact Hrest|].
        intros r' Hr'. rewrite Hm. apply Z.eqb_neq. intros E'.
        apply Hnotin.
        assert (r' = r) as <-; [|exact Hr'].
        apply Huniq; [now right | now left | congruence].
    + constructor; [now repeat split|].
      apply IH; [|exact Hnd'].
      intros a b Ha Hb. apply Huniq; now right.
Qed.

Lemma filter_agrees (X : Z) (x : jsstring)
      (mirror : list Client.Task) (rows : list Row) :
  (forall r, id_matches x r = (id r =? X)%Z) ->
  Forall2 agrees mirror rows ->
  Forall2 agrees (filter (fun t => negb (Client.id t =? X)%Z) mirror)
                 (filter (fun r => negb (id_matches x r)) rows).
Proof.
  intros Hm H. induction H as [|t r mirror rows Htr Hrest IH]; simpl.
  - constructor.
  - rewrite Hm. destruct Htr as [Hid Hrest']. rewrite Hid.
    destruct (id r =? X)%Z; simpl; [exact IH|].
    constructor; [now split | exact IH].
Qed.

Lemma listing_nodup (db : Database) : ids_increasing db -> NoDup (listing db).
Proof.
  intros [Hs _].
  apply (Permutation_NoDup (l := tasks db));
    [symmetry; apply order_by_created_at_desc_perm|].
  apply (NoDup_map_inv id).
  clear -Hs. induction Hs as [|y l Hs IH Hy]; constructor; [|exact IH].
  intros Hin. rewrite Forall_forall in Hy. specialize (Hy y Hin). lia.
Qed.

Lemma unchanged_listing (db db' : Database) :
  tasks db' = tasks db -> listing db' = listing db.
Proof. unfold listing. now intros ->. Qed.

(** X17: [toggleTask] keeps the mirror in step with the server.  If the
    mirror agrees with what List() reports (same tasks, same order, same
    truth value of each flag) and ids are distinct, it still agrees after
    [toggleTask], whether the request succeeds, is refused, fails in the
    driver or never leaves the browser. *)
Theorem toggleTask_keeps_mirror_in_sync
        (net : Browser.Network) (env : Env) (taskId : Z)
        (p : Browser.Page) (db : Database) :
  ids_increasing db -> in_sync p db ->
  in_sync (fst (Browser.toggleTask net env taskId p db))
          (snd (Browser.toggleTask net env taskId p db)).
Proof.
  intros Hinc Hsync. unfold Browser.toggleTask.
  destruct net as [|m]; [|exact Hsync].
  unfold put_toggle, db_run_toggle.
  rewrite number_toString_digits.
  destruct (Z.leb_spec 0 taskId) as [Hpos|Hneg]; simpl; [|exact Hsync].
  destruct (sqlite_error env); simpl; [exact Hsync|].
  destruct (length (filter (id_matches (Client.number_toString taskId))
                           (tasks db)) =? 0)%nat eqn:Hc; simpl.
  - unfold in_sync in *. simpl.
    erewrite unchanged_listing; [exact Hsync|]. simpl.
    apply toggle_no_match. now apply filter_length_zero.
  - unfold in_sync, listing in *. simpl. rewrite order_toggled.
    apply toggle_first_agrees; try assumption.
    + intros r. rewrite id_matches_number.
      destruct (Z.leb_spec 0 taskId); [reflexivity | lia].
    + intros a b. now apply (listing_ids_distinct db).
    + now apply listing_nodup.
Qed.

Lemma toggleTask_keeps_mirror_in_sync_witness :
  in_sync
    (fst (Browser.toggleTask Browser.Online (at_time morning) 1
            {| Browser.tasks := [shown_task 1 (lit "Buy milk") morning];
               Browser.taskInput := []; Browser.errorMessage := None |}
            one_task))
    (snd (Browser.toggleTask Browser.Online (at_time morning) 1
            {| Browser.tasks := [shown_task 1 (lit "Buy milk") morning];
               Browser.taskInput := []; Browser.errorMessage := None |}
            one_task)).
Proof.
  apply toggleTask_keeps_mirror_in_sync.
  - apply reachable_ids_increasing.
    apply (reachable_step (at_time morning) (OpCreate (JString (lit "Buy milk")))).
    apply reachable_empty.
  - constructor; [|constructor]. repeat split.
Defined.

(** X18: [deleteTask] keeps the mirror in step with the server in the
    same sense, whether the user confirms or not and whatever the request
    comes to. *)
Theorem deleteTask_keeps_mirror_in_sync
        (net : Browser.Network) (env : Env) (confirmed : bool) (taskId : Z)
        (p : Browser.Page) (db : Database) :
  in_sync p db ->
  in_sync (fst (Browser.deleteTask net env confirmed taskId p db))
          (snd (Browser.deleteTask net env confirmed taskId p db)).
Proof.
  intros Hsync. unfold Browser.deleteTask.
  destruct confirmed; simpl; [|exact Hsync].
  destruct net as [|m]; [|exact Hsync].
  unfold delete_task, db_run_delete.
  rewrite number_toString_digits.
  destruct (Z.leb_spec 0 taskId) as [Hpos|Hneg]; simpl; [|exact Hsync].
  destruct (sqlite_error env); simpl; [exact Hsync|].
  destruct (length (filter (id_matches (Client.number_toString taskId))
                           (tasks db)) =? 0)%nat eqn:Hc; simpl.
  - unfold in_sync in *. simpl.
    erewrite unchanged_listing; [exact Hsync|]. simpl.
    apply delete_no_match. now apply filter_length_zero.
  - unfold in_sync, listing in *. simpl. rewrite order_filtered.
    apply filter_agrees; [|exact Hsync].
    intros r. rewrite id_matches_number.
    destruct (Z.leb_spec 0 taskId); [reflexivity | lia].
Qed.

Lemma deleteTask_keeps_mirror_in_sync_witness :
  Browser.tasks
    (fst (Browser.deleteTask Browser.Online (at_time morning) true 1
            {| Browser.tasks := [shown_task 1 (lit "Buy milk") morning];
               Browser.taskInput := []; Browser.errorMessage := None |}
            one_task)) = []
  /\ in_sync
       (fst (Browser.deleteTask Browser.Online (at_time morning) true 1
               {| Browser.tasks := [shown_task 1 (lit "Buy milk") morning];
                  Browser.taskInput := []; Browser.errorMessage := None |}
               one_task))
       (snd (Browser.deleteTask Browser.Online (at_time morning) true 1
               {| Browser.tasks := [shown_task 1 (lit "Buy milk") morning];
                  Browser.taskInput := []; Browser.errorMessage := None |}
               one_task)).
Proof.
  split; [reflexivity|].
  apply deleteTask_keeps_mirror_in_sync.
  constructor; [|constructor]. repeat split.
Defined.

(** X19: after a successful [addTask] the page shows the new task first,
    under the trimmed input as its title.  If the mirror agreed with
    List() before, it agrees afterwards exactly when the new task's
    created_at is strictly later than that of every stored task and the
    trimmed input is well-formed UTF-16.  When a stored task was created
    in the same second, List() reports the new task behind it; when the
    input has an unpaired surrogate, List() reports U+FFFD in its place;
    in both cases the page differs from the server until it reloads. *)
Theorem addTask_keeps_mirror_in_sync_iff_strictly_newest
        (env : Env) (p : Browser.Page) (db : Database) :
  working env ->
  let t := trim (Browser.taskInput p) in
  1 <= length t <= 200 -> ~ forbidden t ->
  in_sync p db ->
  (in_sync (fst (Browser.addTask Browser.Online env p db))
           (snd (Browser.addTask Browser.Online env p db))
   <-> Forall (fun r => text_compare (created_at r)
                          (CURRENT_TIMESTAMP (sqlite_clock env)) = Lt)
              (tasks db)
       /\ well_formed t = true).
Proof.
  intros Hw t Hlen Hf Hsync.
  rewrite (addTask_online_accepted env p db Hw Hlen Hf).
  fold t. unfold in_sync, listing. cbn [fst snd Browser.tasks tasks].
  set (new := {| id := next_rowid db; title := sqlite_text t;
                 completed := SQL_FALSE;
                 created_at := CURRENT_TIMESTAMP (sqlite_clock env) |}).
  split.
  - intros H.
    destruct (Forall_dec _ (older_dec new) (tasks db)) as [Hall|Hnot].
    + split; [exact Hall|].
      rewrite (order_snoc_newest (tasks db) new Hall) in H.
      inversion H as [|? ? ? ? [_ [Htitle _]] _]; subst.
      apply sqlite_text_well_formed. simpl in Htitle. now symmetry.
    + exfalso. apply (order_snoc_head (tasks db) new) in Hnot.
      destruct (order_by_created_at_desc (tasks db ++ [new])) as [|r0 rs];
        [inversion H|].
      inversion H as [|? ? ? ? [Hid _] _]; subst. simpl in Hnot, Hid.
      apply max_rowid_ge in Hnot. unfold next_rowid in Hid. lia.
  - intros [Hall Hwf]. rewrite (order_snoc_newest (tasks db) new Hall).
    constructor; [|exact Hsync].
    apply sqlite_text_well_formed in Hwf.
    split; [reflexivity|]. split; [|reflexivity]. simpl. now symmetry.
Qed.

Lemma addTask_keeps_mirror_in_sync_iff_strictly_newest_witness :
  let p := {| Browser.tasks := [shown_task 1 (lit "Buy milk") morning];
              Browser.taskInput := lit "Tea";
              Browser.errorMessage := None |} in
  in_sync (fst (Browser.addTask Browser.Online
                  (at_time (seconds_later 1 morning)) p one_task))
          (snd (Browser.addTask Browser.Online
                  (at_time (seconds_later 1 morning)) p one_task)).
Proof.
  intros p.
  apply (addTask_keeps_mirror_in_sync_iff_strictly_newest
           (at_time (seconds_later 1 morning)) p one_task).
  - reflexivity.
  - vm_compute. lia.
  - intros [H|H]; apply includes_spec in H; vm_compute in H; discriminate H.
  - constructor; [|constructor]. repeat split.
  - split; [repeat constructor | reflexivity].
Defined.

(** ** loadTasks *)

Lemma tasks_of_rows (rows : list Row) :
  Browser.tasks_of_json (map row_json rows) = Some (map task_of_row rows).
Proof.
  induction rows as [|r rows IH]; simpl; [reflexivity|]. now rewrite IH.
Qed.

Lemma rows_agree (rows : list Row) : Forall2 agrees (map task_of_row rows) rows.
Proof.
  induction rows as [|r rows IH]; simpl; constructor; [|exact IH].
  repeat split.
Qed.

(** X20: [loadTasks] replaces the mirror by exactly what List() reports,
    row for row, created_at included, and leaves the input box and the
    banner alone; when the browser is offline or the driver fails, the
    mirror stays as it was and the banner is raised. *)
Theorem loadTasks_mirrors_the_listing
        (net : Browser.Network) (env : Env) (p : Browser.Page) (db : Database) :
  (net = Browser.Online -> working env ->
   Browser.loadTasks net env p db
   = ({| Browser.tasks := map task_of_row (listing db);
         Browser.taskInput := Browser.taskInput p;
         Browser.errorMessage := Browser.errorMessage p |},
      log SelectTasks db)
   /\ in_sync (fst (Browser.loadTasks net env p db))
              (snd (Browser.loadTasks net env p db)))
  /\ (net <> Browser.Online \/ sqlite_error env <> None ->
      Browser.tasks (fst (Browser.loadTasks net env p db)) = Browser.tasks p
      /\ raised (fst (Browser.loadTasks net env p db))
      /\ tasks (snd (Browser.loadTasks net env p db)) = tasks db).
Proof.
  split.
  - intros -> Hw. unfold Browser.loadTasks, get_tasks, db_all_tasks.
    rewrite Hw. simpl. fold (listing db). rewrite tasks_of_rows.
    split; [reflexivity|]. unfold in_sync. simpl. apply rows_agree.
  - intros H. unfold Browser.loadTasks.
    destruct net as [|m].
    + destruct H as [H|H]; [now elim H|].
      unfold get_tasks, db_all_tasks.
      destruct (sqlite_error env); [|now elim H]. simpl.
      split; [reflexivity|]. split; [|reflexivity].
      eexists. split; [reflexivity | discriminate].
    + simpl. split; [reflexivity|]. split; [|reflexivity].
      eexists. split; [reflexivity | discriminate].
Qed.

Lemma loadTasks_mirrors_the_listing_witness :
  Browser.tasks
    (fst (Browser.loadTasks Browser.Online (at_time morning)
            {| Browser.tasks := []; Browser.taskInput := [];
               Browser.errorMessage := None |}
            one_task))
  = [task_of_row {| id := 1; title := lit "Buy milk"; completed := SQL_FALSE;
                    created_at := CURRENT_TIMESTAMP morning |}]
  /\ raised
       (fst (Browser.loadTasks Browser.Online disk_failure
               {| Browser.tasks := []; Browser.taskInput := [];
                  Browser.errorMessage := None |}
               one_task)).
Proof.
  split.
  - destruct (loadTasks_mirrors_the_listing Browser.Online (at_time morning)
                {| Browser.tasks := []; Browser.taskInput := [];
                   Browser.errorMessage := None |} one_task) as [H _].
    destruct (H eq_refl eq_refl) as [E _]. rewrite E. reflexivity.
  - destruct (loadTasks_mirrors_the_listing Browser.Online disk_failure
                {| Browser.tasks := []; Browser.taskInput := [];
                   Browser.errorMessage := None |} one_task) as [_ H].
    apply H. right. discriminate.
Defined.

(** ** Failed mutations *)

Lemma caught_raised (a : jsstring) (fallback : string) (p : Browser.Page) :
  lit fallback <> [] ->
  raised (Browser.showError (Browser.or_default a fallback) p).
Proof.
  intros H. eexists. split; [reflexivity|]. now apply or_default_nonempty.
Qed.

Ltac show_raised :=
  first [ apply caught_raised; discriminate
        | eexists; split; [reflexivity | discriminate] ].

(** X21: a mutation that does not succeed leaves the mirror and the input
    box untouched and raises the error banner with a non-empty text.  This
    holds for [toggleTask], a confirmed [deleteTask] and [addTask] when
    the browser is offline, and when the server answers with anything but
    200; for [addTask] also when the page's own check refuses the input. *)
Theorem failed_mutations_leave_mirror_untouched
        (net : Browser.Network) (env : Env) (taskId : Z)
        (p : Browser.Page) (db : Database) :
  let idText := Client.number_toString taskId in
  let title := JString (trim (Browser.taskInput p)) in
  let unchanged p' :=
    Browser.tasks p' = Browser.tasks p
    /\ Browser.taskInput p' = Browser.taskInput p
    /\ raised p' in
  (net <> Browser.Online \/ status (snd (put_toggle env idText db)) <> 200%Z ->
   unchanged (fst (Browser.toggleTask net env taskId p db)))
  /\ (net <> Browser.Online \/ status (snd (delete_task env idText db)) <> 200%Z ->
      unchanged (fst (Browser.deleteTask net env true taskId p db)))
  /\ (net <> Browser.Online \/ status (snd (post_tasks env title db)) <> 200%Z ->
      unchanged (fst (Browser.addTask net env p db))).
Proof.
  intros idText title unchanged. subst idText title unchanged. cbv beta.
  split; [|split].
  - intros H. unfold Browser.toggleTask.
    destruct net as [|m];
      [|simpl; repeat split; show_raised].
    destruct H as [H|H]; [now elim H|]. revert H.
    unfold put_toggle, db_run_toggle.
    destruct (test_digits (Client.number_toString taskId)); simpl;
      [|intros _; repeat split; show_raised].
    destruct (sqlite_error env); simpl;
      [intros _; repeat split; show_raised|].
    destruct (length _ =? 0)%nat; simpl;
      [intros _; repeat split; show_raised|].
    intros H. now elim H.
  - intros H. unfold Browser.deleteTask. simpl.
    destruct net as [|m];
      [|simpl; repeat split; show_raised].
    destruct H as [H|H]; [now elim H|]. revert H.
    unfold delete_task, db_run_delete.
    destruct (test_digits (Client.number_toString taskId)); simpl;
      [|intros _; repeat split; show_raised].
    destruct (sqlite_error env); simpl;
      [intros _; repeat split; show_raised|].
    destruct (length _ =? 0)%nat; simpl;
      [intros _; repeat split; show_raised|].
    intros H. now elim H.
  - intros H. unfold Browser.addTask.
    destruct (trim (Browser.taskInput p)) as [|c t'] eqn:Et.
    { simpl. repeat split. show_raised. }
    destruct (200 <? length (c :: t')).
    { simpl. repeat split. show_raised. }
    destruct net as [|m];
      [|simpl; repeat split; show_raised].
    destruct H as [H|H]; [now elim H|]. revert H.
    destruct (post_tasks_outcomes env (c :: t') db)
      as [[_ E]|[[_ [e [_ E]]]|[Hv Hw]]].
    + rewrite E. simpl. intros _. repeat split.
      show_raised.
    + rewrite E. simpl. intros _. repeat split.
      show_raised.
    + rewrite (post_tasks_accepted env (c :: t') db Hw Hv). simpl.
      intros H. now elim H.
Qed.

Lemma failed_mutations_leave_mirror_untouched_witness :
  let p := {| Browser.tasks := [shown_task 1 (lit "Buy milk") morning];
              Browser.taskInput := lit "<script>";
              Browser.errorMessage := None |} in
  Browser.errorMessage
    (fst (Browser.toggleTask Browser.Online (at_time morning) 7 p one_task))
  = Some (lit "Task not found")
  /\ raised (fst (Browser.addTask Browser.Online (at_time morning) p one_task))
  /\ raised (fst (Browser.deleteTask (Browser.Offline [])
                    (at_time morning) true 1 p one_task)).
Proof.
  intros p.
  destruct (failed_mutations_leave_mirror_untouched
              Browser.Online (at_time morning) 7 p one_task)
    as [_ [_ Hadd]].
  destruct (failed_mutations_leave_mirror_untouched
              (Browser.Offline []) (at_time morning) 1 p one_task)
    as [_ [Hdel _]].
  split; [reflexivity|]. split.
  - apply Hadd. right. vm_compute. discriminate.
  - apply Hdel. left. discriminate.
Defined.

(** ** The counters *)

Lemma completed_cons (t : Client.Task) (ts : list Client.Task) :
  Browser.completed (t :: ts)
  = (if truthy (Client.completed t) then 1 else 0) + Browser.completed ts.
Proof.
  unfold Browser.completed. simpl. now destruct (truthy (Client.completed t)).
Qed.

(** X22: the page's local toggle changes one task at most.  When no task
    of the mirror has the id, the mirror is left as it is; otherwise the
    number of tasks stays the same and the number of completed tasks goes
    up or down by exactly one, and never exceeds the number of tasks. *)
Theorem toggle_first_moves_the_counter_by_one
        (taskId : Z) (ts : list Client.Task) :
  Browser.total (Browser.toggle_first taskId ts) = Browser.total ts
  /\ Browser.completed ts <= Browser.total ts
  /\ (existsb (fun t => (Client.id t =? taskId)%Z) ts = false ->
      Browser.toggle_first taskId ts = ts)
  /\ (existsb (fun t => (Client.id t =? taskId)%Z) ts = true ->
      Browser.completed (Browser.toggle_first taskId ts) + 1
      = Browser.completed ts
      \/ Browser.completed (Browser.toggle_first taskId ts)
         = Browser.completed ts + 1).
Proof.
  split; [|split; [|split]].
  - unfold Browser.total. induction ts as [|t ts IH]; simpl; [reflexivity|].
    destruct (Client.id t =? taskId)%Z; simpl; [reflexivity | now rewrite IH].
  - unfold Browser.completed, Browser.total. apply filter_length_le.
  - induction ts as [|t ts IH]; simpl; [reflexivity|].
    destruct (Client.id t =? taskId)%Z; simpl; [discriminate|].
    intros H. now rewrite IH.
  - induction ts as [|t ts IH]; simpl; [discriminate|].
    destruct (Client.id t =? taskId)%Z; simpl.
    + intros _. rewrite !completed_cons. simpl.
      destruct (truthy (Client.completed t)); simpl; [left | right]; lia.
    + intros H. rewrite !completed_cons. destruct (IH H); [left | right]; lia.
Qed.

Lemma toggle_first_moves_the_counter_by_one_witness :
  Browser.completed
    (Browser.toggle_first 1 [shown_task 1 (lit "Buy milk") morning])
  = Browser.completed [shown_task 1 (lit "Buy milk") morning] + 1.
Proof.
  destruct (toggle_first_moves_the_counter_by_one
              1 [shown_task 1 (lit "Buy milk") morning])
    as [_ [_ [_ H]]].
  destruct (H eq_refl) as [E|E]; [discriminate E | exact E].
Defined.
